(** * Time-capsule timelapse encoder: a shallow embedding of [timelapse.py]

    The development follows the Python module function by function:
    - strings, paths and [int()] as far as [extract_year] needs them;
    - the stable sort behind [list.sort(key=...)];
    - numpy buffers as rows of BGR pixels living in a store of references,
      so that [img.copy()] and the in-place OpenCV calls keep their aliasing;
    - the blend of [addWeighted] in single precision, as OpenCV computes
      it for 8-bit images;
    - a state-and-exception monad for [create_mp4_timelapse] with its
      [try ... finally], producing a chronological trace of the calls made
      on the video writer and the logger.

    What OpenCV and the file system do is not in the repository: it enters
    through the record [World] (decoder, resampler, glyph rasteriser, the
    writer's behaviour, the directory listing). *)

From Stdlib Require Import Ascii QArith Qround Qabs.
From stdpp Require Import gmap strings list pretty sorting.

Local Open Scope Z_scope.

(** ** Strings and paths *)

Module PyStr.

(** [s.split(sep)] for a one-character separator: always at least one field. *)
Fixpoint split (sep : Ascii.ascii) (s : string) : list string :=
  match s with
  | EmptyString => [EmptyString]
  | String c rest =>
      if Ascii.eqb c sep then EmptyString :: split sep rest
      else match split sep rest with
           | [] => [String c EmptyString]
           | field :: fields => String c field :: fields
           end
  end.

(** [parts[-1]]: the last element, [None] standing for [IndexError]. *)
Definition last_item (parts : list string) : option string := last parts.

(** The characters [int()] skips around an ASCII numeral: tab, line feed,
    vertical tab, form feed, carriage return, space. *)
Definition isspace (c : Ascii.ascii) : bool :=
  let n := Ascii.nat_of_ascii c in
  ((9 <=? n)%nat && (n <=? 13)%nat) || (n =? 32)%nat.

Definition digit_value (c : Ascii.ascii) : option Z :=
  let n := Ascii.nat_of_ascii c in
  if ((48 <=? n)%nat && (n <=? 57)%nat) then Some (Z.of_nat n - 48) else None.

Fixpoint lstrip (s : string) : string :=
  match s with
  | String c rest => if isspace c then lstrip rest else s
  | EmptyString => EmptyString
  end.

Definition rstrip (s : string) : string :=
  String.rev (lstrip (String.rev s)).

Definition strip (s : string) : string := rstrip (lstrip s).

(** A run of decimal digits read left to right, [acc] the value so far. *)
Fixpoint digits (acc : Z) (s : string) : option Z :=
  match s with
  | EmptyString => Some acc
  | String c rest =>
      match digit_value c with
      | Some d => digits (10 * acc + d) rest
      | None => None
      end
  end.

Definition unsigned (s : string) : option Z :=
  match s with
  | EmptyString => None
  | _ => digits 0 s
  end.

(** [int(s)] in base ten on an ASCII string without underscores (the
    caller has split on them): surrounding blanks, one optional sign, at
    least one digit. [None] stands for [ValueError]. A file name is far
    shorter than the 4300 digits at which [int] refuses a numeral.
    Beyond ASCII, [int] also reads the digits and skips the blanks of other
    scripts, which this function refuses: a result [Some n] is [int]'s
    result on every string, a result [None] is [int]'s on the strings that
    [isascii] accepts, and the statements that rest on a [None] ask for
    such strings. *)
Definition int (s : string) : option Z :=
  match strip s with
  | String "-"%char rest => Z.opp <$> unsigned rest
  | String "+"%char rest => unsigned rest
  | body => unsigned body
  end.

(** [str(n)] for an integer. *)
Definition str (n : Z) : string := pretty n.

Fixpoint rfind (c : Ascii.ascii) (s : string) : option nat :=
  match s with
  | EmptyString => None
  | String d rest =>
      match rfind c rest with
      | Some i => Some (S i)
      | None => if Ascii.eqb d c then Some 0%nat else None
      end
  end.

Fixpoint endswith (s suffix : string) : bool :=
  if String.eqb s suffix then true
  else match s with
       | EmptyString => false
       | String _ rest => endswith rest suffix
       end.

(** [", ".join(...)] inside brackets: how an f-string shows a list of ints. *)
Fixpoint join (sep : string) (items : list string) : string :=
  match items with
  | [] => ""
  | [x] => x
  | x :: rest => x +:+ sep +:+ join sep rest
  end.

Definition repr_ints (l : list Z) : string :=
  "[" +:+ join ", " (str <$> l) +:+ "]".

(** [s.startswith(prefix)] *)
Fixpoint startswith (s prefix : string) {struct prefix} : bool :=
  match prefix with
  | EmptyString => true
  | String c prefix' =>
      match s with
      | String d s' => Ascii.eqb d c && startswith s' prefix'
      | EmptyString => false
      end
  end.

(** [s.lower()] on ASCII letters; other characters stay. *)
Definition lower_char (c : Ascii.ascii) : Ascii.ascii :=
  let n := Ascii.nat_of_ascii c in
  if ((65 <=? n)%nat && (n <=? 90)%nat) then Ascii.ascii_of_nat (n + 32) else c.

Fixpoint lower (s : string) : string :=
  match s with
  | EmptyString => EmptyString
  | String c rest => String (lower_char c) (lower rest)
  end.

(** [s[n:]] *)
Definition slice_from (n : nat) (s : string) : string :=
  String.substring n (String.length s - n) s.

End PyStr.

Module PyPath.

(** A path is kept as the string [str(path)] gives. *)
Definition Path := string.

(** [parent / child] where [child] is made of components that pathlib
    keeps as they are: relative, and without an empty or a [.] component
    (pathlib drops those, and an absolute [child] replaces [parent]). The
    names of a directory listing are such components; of a batch identifier
    the statements ask it with [is_batch_id]. *)
Definition joinpath (parent : Path) (child : string) : Path :=
  parent +:+ "/" +:+ child.

(** [path.name]: what follows the last separator. *)
Definition name (p : Path) : string :=
  match PyStr.rfind "/"%char p with
  | Some i => String.substring (S i) (String.length p - S i) p
  | None => p
  end.

(** [path.stem]: the name without its last suffix; a dot in first or in
    last position does not start a suffix. *)
Definition stem (p : Path) : string :=
  let n := name p in
  match PyStr.rfind "."%char n with
  | Some i =>
      if ((0 <? i)%nat && (i <? String.length n - 1)%nat)
      then String.substring 0 i n else n
  | None => n
  end.

(** [path.suffix]: the last suffix of the name with its dot, empty where
    [stem] finds none. *)
Definition suffix (p : Path) : string :=
  let n := name p in
  match PyStr.rfind "."%char n with
  | Some i =>
      if ((0 <? i)%nat && (i <? String.length n - 1)%nat)
      then PyStr.slice_from i n else ""
  | None => ""
  end.

(** [str(path.relative_to(base))]; [None] stands for the [ValueError] of a
    path that does not lie under [base]. *)
Definition relative_to (p base : Path) : option Path :=
  if String.eqb p base then Some "."
  else if PyStr.startswith p (base +:+ "/")
       then Some (PyStr.slice_from (S (String.length base)) p)
       else None.

End PyPath.

Import PyPath.

(** ** The sequencer: [extract_year] and the sort on it *)

(** The closure of [create_timelapse_video]: the last field of the stem
    between underscores, read as an integer; [0] where [int] or the
    indexing raises. *)
Definition extract_year (filepath : Path) : Z :=
  let parts := PyStr.split "_"%char (stem filepath) in
  match PyStr.last_item parts with
  | Some field =>
      match PyStr.int field with
      | Some year => year
      | None => 0
      end
  | None => 0
  end.

Section StableSort.

Context {A : Type} (key : A → Z).

(** [x] goes in front of the first element whose key is not below its
    own, hence in front of its equals. *)
Fixpoint insert_by_key (x : A) (sorted : list A) : list A :=
  match sorted with
  | [] => [x]
  | y :: rest =>
      if key x <=? key y then x :: y :: rest
      else y :: insert_by_key x rest
  end.

(** [l.sort(key=key)]: ascending in the key, stable. Folding from the
    right, an element meets only elements that followed it in [l]. *)
Definition sort_by_key (l : list A) : list A :=
  foldr insert_by_key [] l.

(** The order the sort establishes. *)
Definition le_key : relation A := λ x y, key x ≤ key y.

End StableSort.


(** ** Images: numpy buffers of 8-bit BGR pixels *)

Abbreviation pixel := (Z * Z * Z)%type.

(** An [ndarray] of shape (height, width, 3), row by row. *)
Abbreviation ndarray := (list (list pixel)).

(** [img.shape[:2]] *)
Definition shape (a : ndarray) : nat * nat :=
  (length a, length (default [] (head a))).

Definition pixel_at (a : ndarray) (y x : nat) : option pixel :=
  a !! y ≫= λ row, row !! x.

Module cv2px.

(** [saturate_cast<uchar>] *)
Definition saturate_u8 (v : Z) : Z := Z.max 0 (Z.min 255 v).

(** [cvRound]: to the nearest integer, a tie going to the even one. *)
Definition cvRound (q : Q) : Z :=
  let lo := Qfloor q in
  match Qcompare (q - inject_Z lo) (1 # 2) with
  | Lt => lo
  | Gt => lo + 1
  | Eq => if Z.even lo then lo else lo + 1
  end.

(** The binary floating-point number with [prec] significant bits nearest
    to [q], a tie going to the even significand. The exponent is not
    bounded: the values met here, products and sums of 8-bit channels and
    weights between 0 and 1, stay far inside the normal range. *)
Definition round_binary (prec : Z) (q : Q) : Q :=
  match Qnum q with
  | 0 => 0%Q
  | _ =>
      let a := Qabs q in
      let e0 := Z.log2 (Qnum a) - Z.log2 (Zpos (Qden a)) in
      let e := if Qle_bool (Qpower 2 e0) a then e0 else e0 - 1 in
      let ulp := Qpower 2 (e - prec + 1) in
      let m := cvRound (a / ulp) in
      Qred ((if Qnum q <? 0 then -1 else 1) * (inject_Z m * ulp))
  end.

(** A Python [float] literal, and its cast to C's [float]. *)
Definition f64 : Q → Q := round_binary 53.
Definition f32 : Q → Q := round_binary 24.

(** One channel of [addWeighted] on 8-bit images:
    [saturate_cast<uchar>(src1*alpha + src2*beta + gamma)], computed as
    OpenCV does for this depth, in single precision: the three scalars
    arrive as doubles and are cast to [float], each product and each sum is
    rounded to [float], and the result goes through [cvRound]. *)
Definition weighted (alpha beta gamma : Q) (c1 c2 : Z) : Z :=
  let a := f32 (f64 alpha) in
  let b := f32 (f64 beta) in
  let g := f32 (f64 gamma) in
  saturate_u8
    (cvRound (f32 (f32 (f32 (inject_Z c1 * a) + f32 (inject_Z c2 * b)) + g))).

(** The same channel as the vectorised loop forms it where the hardware
    fuses a multiplication with the addition that follows:
    [fma(src1, alpha, fma(src2, beta, gamma))], each [fma] rounded once.
    On the pixels the overlay blends the two ways agree
    ([weighted_fma_agrees]), so [weighted] speaks for both. *)
Definition weighted_fma (alpha beta gamma : Q) (c1 c2 : Z) : Z :=
  let a := f32 (f64 alpha) in
  let b := f32 (f64 beta) in
  let g := f32 (f64 gamma) in
  saturate_u8 (cvRound (f32 (inject_Z c1 * a + f32 (inject_Z c2 * b + g)))).

Definition weighted_pixel (alpha beta gamma : Q) (p1 p2 : pixel) : pixel :=
  let '(b1, g1, r1) := p1 in
  let '(b2, g2, r2) := p2 in
  (weighted alpha beta gamma b1 b2,
   weighted alpha beta gamma g1 g2,
   weighted alpha beta gamma r1 r2).

Definition addWeighted (src1 : ndarray) (alpha : Q) (src2 : ndarray)
    (beta gamma : Q) : ndarray :=
  zip_with (zip_with (weighted_pixel alpha beta gamma)) src1 src2.

(** Points are (x, y); both corners belong to the rectangle. *)
Definition in_rect (pt1 pt2 : Z * Z) (y x : nat) : bool :=
  (pt1.1 <=? Z.of_nat x) && (Z.of_nat x <=? pt2.1) &&
  (pt1.2 <=? Z.of_nat y) && (Z.of_nat y <=? pt2.2).

(** [rectangle] with thickness [-1]: filled, clipped to the image. *)
Definition rectangle (a : ndarray) (pt1 pt2 : Z * Z) (color : pixel) : ndarray :=
  imap (λ y row, imap (λ x p, if in_rect pt1 pt2 y x then color else p) row) a.

End cv2px.

(** ** Exceptions, events and the outside world *)

Inductive exn : Type :=
| ValueError (msg : string)
| FileNotFoundError (msg : string)
| IndexError
| cv2_error (msg : string).

Inductive outcome (A : Type) : Type :=
| Return (a : A)
| Raise (e : exn).
Arguments Return {A} a.
Arguments Raise {A} e.

Inductive level : Type := INFO | WARNING.

(** What a run does that can be seen from outside, in the order it happens. *)
Inductive event : Type :=
| EvOpen (filename : Path) (fourcc : string) (fps : Z)
         (frameSize : nat * nat) (opened : bool)
| EvWrite (frame : ndarray)
| EvRelease
| EvLog (lvl : level) (msg : string).

#[global] Instance exn_eq_dec : EqDecision exn.
Proof. solve_decision. Defined.

Definition is_release (e : event) : bool :=
  match e with EvRelease => true | _ => false end.

Definition is_open (e : event) : bool :=
  match e with EvOpen _ _ _ _ _ => true | _ => false end.

Definition is_write (e : event) : bool :=
  match e with EvWrite _ => true | _ => false end.

(** The frames handed to the container, in order. *)
Definition frames_of (t : list event) : list ndarray :=
  omap (λ e, match e with EvWrite f => Some f | _ => None end) t.

(** The files a trace brings into existence. Nothing in the module writes
    to disk but the [VideoWriter]: one whose constructor opened its
    container has created the file at its path, one that did not open has
    created none. *)
Definition files_created (t : list event) : list Path :=
  omap (λ e, match e with EvOpen p _ _ _ true => Some p | _ => None end) t.

Inductive HersheyFont : Type := FONT_HERSHEY_SIMPLEX.

Record World : Type := {
  (** the entries of a directory in the order globbing meets them, none
      for a plain file; [None] where nothing exists at that path *)
  listdir : Path → option (list string);
  (** [cv2.imread]: the decoded image, [None] where decoding fails *)
  imread : Path → outcome (option ndarray);
  (** [cv2.resize] to (width, height) *)
  resize : ndarray → nat * nat → outcome ndarray;
  (** [cv2.putText]: the buffer with the glyphs drawn into it *)
  putText : ndarray → string → Z * Z → HersheyFont → Q → pixel → Z → ndarray;
  (** the constructor of [cv2.VideoWriter]: whether the container opened
      ([isOpened()]); OpenCV reports a failure to open through that flag *)
  writer_open : Path → string → Z → nat * nat → outcome bool;
  (** [VideoWriter.write] on an open writer: the error it raises, if any,
      given all that happened before *)
  writer_fault : list event → ndarray → option exn;
}.

(** ** The interpreter state and its monad *)

(** A reference is the position of its buffer in the heap. *)
Abbreviation ref := nat.

Record state : Type := {
  heap : list ndarray;       (** the buffers allocated so far, by reference *)
  trace : list event;        (** oldest event first *)
}.

Definition M (A : Type) : Type := state → outcome A * state.

#[global] Instance M_ret : MRet M := λ A a s, (Return a, s).

#[global] Instance M_bind : MBind M := λ A B k m s,
  match m s with
  | (Return a, s') => k a s'
  | (Raise e, s') => (Raise e, s')
  end.

Definition raise {A} (e : exn) : M A := λ s, (Raise e, s).

Definition emit (e : event) : M unit :=
  λ s, (Return (), {| heap := heap s; trace := trace s ++ [e] |}).

Definition lift {A} (o : outcome A) : M A := λ s, (o, s).

Definition get_trace : M (list event) := λ s, (Return (trace s), s).

(** [try: body finally: cleanup] *)
Definition try_finally {A} (body : M A) (cleanup : M unit) : M A := λ s,
  let '(r, s1) := body s in
  match cleanup s1 with
  | (Return _, s2) => (r, s2)
  | (Raise e, s2) => (Raise e, s2)
  end.

(** [for x in l: body(x)]; a [continue] is a body that returns early. *)
Fixpoint for_each {A} (body : A → M unit) (l : list A) : M unit :=
  match l with
  | [] => mret ()
  | x :: rest => body x;; for_each body rest
  end.

Definition content (s : state) (r : ref) : ndarray := default [] (heap s !! r).

Definition load (r : ref) : M ndarray := λ s, (Return (content s r), s).

Definition store (r : ref) (a : ndarray) : M unit :=
  λ s, (Return (), {| heap := <[r := a]> (heap s); trace := trace s |}).

Definition alloc (a : ndarray) : M ref :=
  λ s, (Return (length (heap s)), {| heap := heap s ++ [a]; trace := trace s |}).

Record VideoWriter : Type := { isOpened : bool }.

Section Program.

Context (W : World).

(** *** The OpenCV and numpy calls, on references *)

Definition cv2_imread (filename : Path) : M (option ref) :=
  decoded ← lift (imread W filename);
  match decoded with
  | Some a => img ← alloc a; mret (Some img)
  | None => mret None
  end.

Definition cv2_resize (src : ref) (dsize : nat * nat) : M ref :=
  a ← load src;
  resized ← lift (resize W a dsize);
  alloc resized.

(** [a.copy()]: a new buffer with the same pixels *)
Definition np_copy (src : ref) : M ref :=
  a ← load src; alloc a.

(** [cv2.rectangle(img, pt1, pt2, color, -1)] draws into [img]. *)
Definition cv2_rectangle (img : ref) (pt1 pt2 : Z * Z) (color : pixel) : M unit :=
  a ← load img; store img (cv2px.rectangle a pt1 pt2 color).

(** [cv2.addWeighted(src1, alpha, src2, beta, gamma, dst)] writes into [dst]. *)
Definition cv2_addWeighted (src1 : ref) (alpha : Q) (src2 : ref)
    (beta gamma : Q) (dst : ref) : M unit :=
  a1 ← load src1;
  a2 ← load src2;
  store dst (cv2px.addWeighted a1 alpha a2 beta gamma).

(** [cv2.putText(img, text, org, font, scale, color, thickness)] draws
    into [img]. *)
Definition cv2_putText (img : ref) (text : string) (org : Z * Z)
    (font : HersheyFont) (font_scale : Q) (color : pixel) (thickness : Z) : M unit :=
  a ← load img;
  store img (putText W a text org font font_scale color thickness).

Definition VideoWriter_new (filename : Path) (fourcc : string) (fps : Z)
    (frameSize : nat * nat) : M VideoWriter :=
  opened ← lift (writer_open W filename fourcc fps frameSize);
  emit (EvOpen filename fourcc fps frameSize opened);;
  mret {| isOpened := opened |}.

(** A writer that did not open ignores the frames it is given. *)
Definition VideoWriter_write (vw : VideoWriter) (image : ref) : M unit :=
  if isOpened vw then
    frame ← load image;
    past ← get_trace;
    match writer_fault W past frame with
    | Some e => raise e
    | None => emit (EvWrite frame)
    end
  else mret ().

Definition VideoWriter_release (vw : VideoWriter) : M unit :=
  emit EvRelease.

Definition logger_info (msg : string) : M unit := emit (EvLog INFO msg).
Definition logger_warning (msg : string) : M unit := emit (EvLog WARNING msg).

(** *** [add_year_overlay] *)

Definition add_year_overlay (img : ref) (year : Z) (use_cv2 : bool) : M ref :=
  if use_cv2 then
    img_copy ← np_copy img;
    overlay ← np_copy img_copy;
    cv2_rectangle overlay (10, 10) (200, 80) (0, 0, 0);;
    cv2_addWeighted overlay (7 # 10) img_copy (3 # 10) 0 img_copy;;
    let font := FONT_HERSHEY_SIMPLEX in
    let font_scale := 2%Q in
    let color := (255, 255, 255) in
    let thickness := 3 in
    let text := PyStr.str year in
    let text_x := 20 in
    let text_y := 50 in
    cv2_putText img_copy text (text_x, text_y) font font_scale color thickness;;
    mret img_copy
  else
    mret img.

(** *** [create_mp4_timelapse] *)

Definition frame_duration (fps : Z) : Z :=
  if fps =? 1 then 2 else Z.max 1 (fps / 2).

(** The body of the [for] loop, for one pair of [zip(image_files, years)]. *)
Definition encode_image (video_writer : VideoWriter) (height width : nat)
    (fps : Z) (item : Path * Z) : M unit :=
  let '(image_file, year) := item in
  img ← cv2_imread image_file;
  match img with
  | None => logger_warning ("Could not read image: " +:+ image_file)
  | Some img =>
      a ← load img;
      img ← (if bool_decide (shape a ≠ (height, width))
             then cv2_resize img (width, height) else mret img);
      img_with_year ← add_year_overlay img year true;
      for_each (λ _, VideoWriter_write video_writer img_with_year)
               (seq 0 (Z.to_nat (frame_duration fps)))
  end.

Definition create_mp4_timelapse (image_files : list Path) (years : list Z)
    (output_path : Path) (fps : Z) : M string :=
  match image_files with
  | [] => raise IndexError
  | first_file :: _ =>
      first_image ← cv2_imread first_file;
      match first_image with
      | None => raise (ValueError ("Could not read image: " +:+ first_file))
      | Some first_image =>
          a ← load first_image;
          let '(height, width) := shape a in
          let fourcc := "mp4v" in
          video_writer ← VideoWriter_new output_path fourcc fps (width, height);
          try_finally
            (for_each (encode_image video_writer height width fps)
                      (zip image_files years))
            (VideoWriter_release video_writer);;
          logger_info ("Created MP4 timelapse: " +:+ output_path);;
          mret output_path
      end
  end.

(** *** [create_timelapse_video] *)

Definition path_exists (p : Path) : bool := bool_decide (is_Some (listdir W p)).

(** [list(batch_dir.glob('*.png'))] *)
Definition glob_png (dir : Path) : list Path :=
  match listdir W dir with
  | Some entries =>
      joinpath dir <$> filter (λ n, PyStr.endswith n ".png" = true) entries
  | None => []
  end.

Definition create_timelapse_video (batch_id : string) (output_format : string)
    : M string :=
  if bool_decide (output_format ≠ "mp4") then
    raise (ValueError "Only MP4 format is supported")
  else
    let batch_dir := joinpath "output" batch_id in
    if negb (path_exists batch_dir) then
      raise (FileNotFoundError ("Batch directory not found: " +:+ batch_dir))
    else
      let image_files := glob_png batch_dir in
      match image_files with
      | [] => raise (FileNotFoundError
                       ("No images found in batch directory: " +:+ batch_dir))
      | _ =>
          let image_files := sort_by_key extract_year image_files in
          let years := extract_year <$> image_files in
          logger_info ("Creating MP4 timelapse for years: "
                       +:+ PyStr.repr_ints years);;
          let output_filename := "timelapse_" +:+ batch_id +:+ ".mp4" in
          let output_path := joinpath batch_dir output_filename in
          create_mp4_timelapse image_files years output_path 1
      end.

End Program.

(** ** Derived notions used by the statements *)

(** The year a file name carries, where it carries one. *)
Definition year_field (filepath : Path) : option Z :=
  PyStr.last_item (PyStr.split "_"%char (stem filepath)) ≫= PyStr.int.

(** The pixels of [img_copy] once the darkened rectangle has been blended
    in (the state after the call of [addWeighted]). *)
Definition backdrop (a : ndarray) : ndarray :=
  cv2px.addWeighted (cv2px.rectangle a (10, 10) (200, 80) (0, 0, 0))
                    (7 # 10) a (3 # 10) 0.

(** The pixels of the frame [add_year_overlay] returns. *)
Definition composite (W : World) (a : ndarray) (year : Z) : ndarray :=
  putText W (backdrop a) (PyStr.str year) (20, 50)
          FONT_HERSHEY_SIMPLEX 2 (255, 255, 255) 3.

(** [emits P m]: from any state, [m] only appends events, all of them in [P]. *)
Definition emits {A} (P : event → Prop) (m : M A) : Prop :=
  ∀ s, ∃ evs, trace (m s).2 = trace s ++ evs ∧ Forall P evs.

(** The events of the loop body: frames written and log lines. *)
Definition body_event (e : event) : Prop :=
  is_release e = false ∧ is_open e = false.

(** How many times a trace releases the writer. *)
Definition releases (t : list event) : nat :=
  length (filter (λ e, is_release e = true) t).

(** The events a run from [s] to [s'] added. *)
Definition added (s s' : state) : list event :=
  drop (length (trace s)) (trace s').

(** No decoding, resampling or write raises. Decoding may still fail by
    returning nothing. *)
Definition faultless (W : World) : Prop :=
  (∀ p, ∃ o, imread W p = Return o)
  ∧ (∀ a dsize, ∃ a', resize W a dsize = Return a')
  ∧ (∀ past frame, writer_fault W past frame = None).

Definition decoded (W : World) (f : Path) : option ndarray :=
  match imread W f with Return o => o | Raise _ => None end.

Definition resized (W : World) (a : ndarray) (dsize : nat * nat) : ndarray :=
  match resize W a dsize with Return a' => a' | Raise _ => a end.

(** The image brought to the reference dimensions where it differs. *)
Definition normalized (W : World) (height width : nat) (a : ndarray) : ndarray :=
  if bool_decide (shape a ≠ (height, width)) then resized W a (width, height) else a.

(** The frames one pair of the loop puts into an open container. *)
Definition item_frames (W : World) (height width : nat) (fps : Z)
    (item : Path * Z) : list ndarray :=
  match decoded W item.1 with
  | Some a => replicate (Z.to_nat (frame_duration fps))
                        (composite W (normalized W height width a) item.2)
  | None => []
  end.

(** The events of one pair of the loop. *)
Definition item_events (W : World) (opened : bool) (height width : nat) (fps : Z)
    (item : Path * Z) : list event :=
  match decoded W item.1 with
  | Some a => if opened then EvWrite <$> item_frames W height width fps item else []
  | None => [EvLog WARNING ("Could not read image: " +:+ item.1)]
  end.

(** ** A small concrete world

    Two-by-two grey images, a resampler that fills the requested size with
    one grey, a rasteriser that draws nothing, a writer that opens or not
    and fails where told. Three batch directories: [web_0] with two images
    and a text file, [web_1] with nothing but an image named like an
    artifact, [web_2] with nothing but a text file. It serves to run the
    program on concrete inputs. *)

Module Sample.

Definition gray (height width : nat) (v : Z) : ndarray :=
  replicate height (replicate width (v, v, v)).

Definition world (undecodable : Path → bool) (opens : bool)
    (fault : list event → option exn) : World := {|
  listdir p :=
    if String.eqb p "output/web_0"
    then Some ["img_1_2_3_1950.png"; "notes.txt"; "img_1_2_3_1850.png"]
    else if String.eqb p "output/web_1" then Some ["timelapse_web_1.png"]
    else if String.eqb p "output/web_2" then Some ["notes.txt"]
    else None;
  imread p := Return (if undecodable p then None else Some (gray 2 2 100));
  resize _ dsize := Return (gray dsize.2 dsize.1 50);
  putText a _ _ _ _ _ _ := a;
  writer_open _ _ _ _ := Return opens;
  writer_fault past _ := fault past;
|}.

(** Everything decodes, the container opens, no write fails. *)
Definition quiet : World := world (λ _, false) true (λ _, None).

Definition start : state := {| heap := []; trace := [] |}.

End Sample.

(** ** The media inventory: [get_batch_media_info] *)

#[global] Instance outcome_ret : MRet outcome := λ A a, Return a.

#[global] Instance outcome_bind : MBind outcome := λ A B k o,
  match o with
  | Return a => k a
  | Raise e => Raise e
  end.

(** One entry of [info['images']] *)
Record image_info : Type := {
  image_filename : string;
  image_path : string;
  image_size : Z;
}.

(** One entry of [info['videos']] *)
Record video_info : Type := {
  video_filename : string;
  video_path : string;
  video_format : string;
  video_size : Z;
}.

(** The dictionary [get_batch_media_info] returns. *)
Record media_info : Type := {
  info_batch_id : string;
  info_images : list image_info;
  info_videos : list video_info;
}.

Section Inventory.

Context (W : World).

(** [path.stat().st_size]; [stat] raises where the file has gone or may
    not be looked at. *)
Context (st_size : Path → outcome Z).

(** [list(dir.glob('*' + ext))] *)
Definition glob_suffix (dir : Path) (ext : string) : list Path :=
  match listdir W dir with
  | Some entries =>
      joinpath dir <$> filter (λ n, PyStr.endswith n ext = true) entries
  | None => []
  end.

Definition relative_to_output (p : Path) : outcome string :=
  match relative_to p "output" with
  | Some rel => Return rel
  | None => Raise (ValueError (p +:+ " is not in the subpath of output"))
  end.

(** The first loop of [get_batch_media_info]. *)
Fixpoint collect_images (image_files : list Path) : outcome (list image_info) :=
  match image_files with
  | [] => Return []
  | img_file :: rest =>
      if negb (PyStr.startswith (name img_file) "timelapse_") then
        rel ← relative_to_output img_file;
        size ← st_size img_file;
        let entry := {| image_filename := name img_file;
                        image_path := rel;
                        image_size := size |} in
        entries ← collect_images rest;
        Return (entry :: entries)
      else collect_images rest
  end.

(** The second loop of [get_batch_media_info]. *)
Fixpoint collect_videos (mp4_files : list Path) : outcome (list video_info) :=
  match mp4_files with
  | [] => Return []
  | video_file :: rest =>
      rel ← relative_to_output video_file;
      size ← st_size video_file;
      let entry := {| video_filename := name video_file;
                      video_path := rel;
                      video_format := "mp4";
                      video_size := size |} in
      entries ← collect_videos rest;
      Return (entry :: entries)
  end.

Definition get_batch_media_info (batch_id : string) : outcome media_info :=
  let batch_dir := joinpath "output" batch_id in
  if negb (path_exists W batch_dir) then
    Return {| info_batch_id := batch_id; info_images := []; info_videos := [] |}
  else
    images ← collect_images (glob_suffix batch_dir ".png");
    videos ← collect_videos (glob_suffix batch_dir ".mp4");
    Return {| info_batch_id := batch_id;
              info_images := images;
              info_videos := videos |}.

End Inventory.

(** A directory entry: a name without a separator. *)
Definition is_entry_name (n : string) : Prop := PyStr.rfind "/"%char n = None.

(** ** More derived notions *)

(** How many times a trace constructs a writer. *)
Definition opens (t : list event) : nat :=
  length (filter (λ e, is_open e = true) t).

(** The rasteriser draws into its buffer without resizing it, and the
    resampler delivers the size it is asked for (a buffer kept as its rows
    has a width only when it has a row). *)
Definition keeps_dimensions (W : World) : Prop :=
  (∀ a text org font font_scale color thickness,
      shape (putText W a text org font font_scale color thickness) = shape a)
  ∧ (∀ a width height a',
      (0 < height)%nat →
      resize W a (width, height) = Return a' → shape a' = (height, width)).

(** Strings all of whose characters pass a test. *)
Fixpoint all_chars (P : Ascii.ascii → bool) (s : string) : bool :=
  match s with
  | EmptyString => true
  | String c rest => P c && all_chars P rest
  end.

Definition digit_char (c : Ascii.ascii) : bool :=
  match PyStr.digit_value c with Some _ => true | None => false end.

(** The characters [str] produces: digits and the minus sign. *)
Definition numeral_char (c : Ascii.ascii) : bool :=
  digit_char c || Ascii.eqb c "-".

(** [s.isascii()] *)
Definition isascii (s : string) : bool :=
  all_chars (λ c, (Ascii.nat_of_ascii c <? 128)%nat) s.

(** A batch identifier that names a directory of its own under [output]:
    one path component, neither empty nor the current directory. *)
Definition is_batch_id (batch_id : string) : Prop :=
  batch_id ≠ "" ∧ batch_id ≠ "." ∧ is_entry_name batch_id.


(** ** The web routes of [app.py] that read a batch *)

(** [str(e)] for the exceptions of this development. *)
Definition exn_str (e : exn) : string :=
  match e with
  | ValueError msg => msg
  | FileNotFoundError msg => msg
  | IndexError => "list index out of range"
  | cv2_error msg => msg
  end.

Section BatchInfo.

(** [float(s)] for a type of floats: [None] stands for [ValueError]. *)
Context {float_t : Type} (float : string → option float_t).

Context (W : World).

(** The dictionary under ['coordinates'] once it is filled. *)
Record coordinates : Type := {
  latitude : float_t;
  longitude : float_t;
  altitude : float_t;
}.

(** What [get_batch_info] hands to [jsonify], with the status code. *)
Inductive batch_info_response : Type :=
| BatchInfoError (status : nat) (error : string)
| BatchInfo (batch_id : string) (available_years : list Z)
            (coords : option coordinates).

(** The body of the loop for one file: the year and the coordinates its
    name gives, [None] where the name has fewer than five fields or a
    conversion raises. *)
Definition parse_image_name (image_file : Path) : option (Z * coordinates) :=
  let parts := PyStr.split "_"%char (stem image_file) in
  if (5 <=? length parts)%nat then
    year ← PyStr.last_item parts ≫= PyStr.int;
    lat ← parts !! 1%nat ≫= float;
    lon ← parts !! 2%nat ≫= float;
    alt ← parts !! 3%nat ≫= float;
    Some (year, {| latitude := lat; longitude := lon; altitude := alt |})
  else None.

(** One turn of the loop on [available_years] and [coordinates] (an empty
    dictionary is [None]). *)
Definition batch_info_step (acc : list Z * option coordinates)
    (image_file : Path) : list Z * option coordinates :=
  match parse_image_name image_file with
  | Some (year, c) =>
      (acc.1 ++ [year], match acc.2 with Some _ => acc.2 | None => Some c end)
  | None => acc
  end.

Definition get_batch_info (batch_id : string) : batch_info_response :=
  let batch_dir := joinpath "output" batch_id in
  if negb (path_exists W batch_dir) then BatchInfoError 404 "Batch not found"
  else
    let image_files := glob_png W batch_dir in
    let '(available_years, coords) :=
      foldl batch_info_step ([], None) image_files in
    BatchInfo batch_id (sort_by_key id available_years) coords.

End BatchInfo.

Arguments BatchInfoError {float_t} status error.
Arguments BatchInfo {float_t} batch_id available_years coords.

(** What the route [create_timelapse] hands to [jsonify]. *)
Inductive timelapse_response : Type :=
| TimelapseError (status : nat) (error : string)
| TimelapseCreated (batch_id video_path video_filename download_url
                    preview_url static_url : string).

(** What [download_file] answers: an error with its status, or the response
    [send_file] built. *)
Inductive download_response : Type :=
| DownloadError (status : nat) (error : string)
| SendFile (path : Path) (as_attachment : bool) (mimetype : option string)
           (download_name : option string).

Section Routes.

Context (W : World).

(** [/api/create_timelapse/<batch_id>], [format_arg] being
    [request.args.get('format')]. *)
Definition create_timelapse (format_arg : option string) (batch_id : string)
    : M timelapse_response := λ s,
  let output_format := PyStr.lower (default "mp4" format_arg) in
  if bool_decide (output_format ≠ "mp4") then
    (Return (TimelapseError 400 "Only MP4 format is supported"), s)
  else
    match create_timelapse_video W batch_id output_format s with
    | (Return video_path, s') =>
        let video_filename := name video_path in
        let static_url :=
          "/static/output/" +:+ batch_id +:+ "/" +:+ video_filename in
        (Return (TimelapseCreated batch_id video_path video_filename
                   ("/download/" +:+ batch_id +:+ "/" +:+ video_filename)
                   static_url static_url), s')
    | (Raise (FileNotFoundError msg), s') =>
        (Return (TimelapseError 404 msg), s')
    | (Raise e, s') => (Return (TimelapseError 500 (exn_str e)), s')
    end.

(** Flask's [send_file] with its arguments [as_attachment], [mimetype] and
    [download_name]: the error it raises, if any (the file may have vanished
    or be unreadable). *)
Context (send_file : Path → bool → option string → option string → option exn).

(** [/download/<path:filename>], [inline_arg] being
    [request.args.get('inline')]. The body stands in a [try]: an error of
    [send_file] becomes the answer 500 with the error's text. *)
Definition download_file (inline_arg : option string) (filename : string)
    : download_response :=
  let file_path := joinpath "output" filename in
  if path_exists W file_path then
    let inline := bool_decide (PyStr.lower (default "false" inline_arg) = "true") in
    let mimetype :=
      if bool_decide (PyStr.lower (suffix file_path) = ".mp4") then Some "video/mp4"
      else if bool_decide (PyStr.lower (suffix file_path) = ".webm") then Some "video/webm"
      else if bool_decide (PyStr.lower (suffix file_path) = ".gif") then Some "image/gif"
      else None in
    let download_name := if inline then None else Some (name file_path) in
    match send_file file_path (negb inline) mimetype download_name with
    | None => SendFile file_path (negb inline) mimetype download_name
    | Some e => DownloadError 500 (exn_str e)
    end
  else DownloadError 404 "File not found".

End Routes.

(** [base64.b64encode(data).decode('utf-8')] *)
Module Base64.

Definition alphabet : string :=
  "ABCDEFGHIJKLMNOPQRSTUVWXYZabcdefghijklmnopqrstuvwxyz0123456789+/".

(** The character of a six-bit value. *)
Definition char (n : N) : Ascii.ascii :=
  default "="%char (String.get (N.to_nat n) alphabet).

(** Three bytes give four characters; one or two bytes left at the end are
    padded with [=]. *)
Fixpoint b64encode (data : list Byte.byte) : string :=
  match data with
  | [] => ""
  | [a] =>
      let n := (Byte.to_N a * 65536)%N in
      String (char (n / 262144)) (String (char ((n / 4096) mod 64)) "==")
  | [a; b] =>
      let n := (Byte.to_N a * 65536 + Byte.to_N b * 256)%N in
      String (char (n / 262144)) (String (char ((n / 4096) mod 64))
        (String (char ((n / 64) mod 64)) "="))
  | a :: b :: c :: rest =>
      let n := (Byte.to_N a * 65536 + Byte.to_N b * 256 + Byte.to_N c)%N in
      String (char (n / 262144)) (String (char ((n / 4096) mod 64))
        (String (char ((n / 64) mod 64)) (String (char (n mod 64))
          (b64encode rest))))
  end.

End Base64.


Section ImageContent.

Context (W : World).

(** [open(path, 'rb').read()] and [open(path, 'r').read()] *)
Context (read_bytes : Path → outcome (list Byte.byte)).
Context (read_text : Path → outcome string).


End ImageContent.

(** * Properties *)

Ltac run_monad :=
  unfold mbind, M_bind, mret, M_ret, load, store, alloc, lift, emit, raise,
    get_trace, content; simpl.

(** ** Evaluations *)

Example extract_year_img :
  extract_year "output/web_1a2b3c4d/img_48.85_2.35_35.0_1850.png" = 1850.
Proof. reflexivity. Qed.

Example extract_year_oops : extract_year "output/b/d_1_2_3_oops.png" = 0.
Proof. reflexivity. Qed.

Example extract_year_negative : extract_year "output/b/e_1_2_3_-5.png" = -5.
Proof. reflexivity. Qed.

Example stem_examples :
  stem "output/b/.png" = ".png" ∧ stem "a/b.tar.gz" = "b.tar" ∧ stem "x/y" = "y".
Proof. repeat split; reflexivity. Qed.

Example str_examples : PyStr.str 1850 = "1850" ∧ PyStr.str (-5) = "-5" ∧ PyStr.str 0 = "0".
Proof. repeat split; vm_compute; reflexivity. Qed.

Example repr_example : PyStr.repr_ints [1850; 1900] = "[1850, 1900]".
Proof. vm_compute. reflexivity. Qed.

(** ** The stable sort *)

Section StableSortFacts.

Context {A : Type} (key : A → Z).

Lemma insert_by_key_Permutation x l : insert_by_key key x l ≡ₚ x :: l.
Proof.
  induction l as [|y l IH]; simpl; [done|].
  destruct (key x <=? key y); [done|].
  rewrite IH. apply Permutation_swap.
Qed.

Lemma sort_by_key_Permutation l : sort_by_key key l ≡ₚ l.
Proof.
  induction l as [|x l IH]; simpl; [done|].
  by rewrite insert_by_key_Permutation, IH.
Qed.

Lemma insert_by_key_sorted x l :
  StronglySorted (le_key key) l → StronglySorted (le_key key) (insert_by_key key x l).
Proof.
  induction 1 as [|y l Hl IH Hy]; simpl.
  - repeat constructor.
  - destruct (Z.leb_spec (key x) (key y)) as [Hxy|Hxy].
    + constructor; [by constructor|].
      constructor; [done|].
      eapply Forall_impl; [exact Hy|]. unfold le_key. intros z ?. lia.
    + constructor; [done|].
      rewrite insert_by_key_Permutation.
      constructor; [unfold le_key; lia | done].
Qed.

Lemma sort_by_key_sorted l : StronglySorted (le_key key) (sort_by_key key l).
Proof.
  induction l as [|x l IH]; simpl; [constructor|].
  by apply insert_by_key_sorted.
Qed.



(** Sortedness and stability leave no choice: two sorted lists that agree
    key by key are equal, so every stable sort returns [sort_by_key]. *)
Lemma stable_sorted_unique l1 l2 :
  StronglySorted (le_key key) l1 →
  StronglySorted (le_key key) l2 →
  (∀ k, filter (λ y, key y = k) l1 = filter (λ y, key y = k) l2) →
  l1 = l2.
Proof.
  intros Hl1. revert l2.
  induction Hl1 as [|x l1 Hl1 IH Hx]; intros l2 Hl2 Hfilter.
  - destruct l2 as [|y l2]; [done|].
    specialize (Hfilter (key y)). by rewrite filter_cons_True in Hfilter.
  - destruct Hl2 as [|y l2 Hl2 Hy].
    { specialize (Hfilter (key x)). by rewrite filter_cons_True in Hfilter. }
    assert (key x = key y) as Hxy.
    { destruct (decide (key x = key y)) as [|Hne]; [done|exfalso].
      pose proof (Hfilter (key x)) as Hkx. pose proof (Hfilter (key y)) as Hky.
      rewrite filter_cons_True, (filter_cons_False _ y) in Hkx by done.
      rewrite (filter_cons_False _ x), filter_cons_True in Hky by done.
      assert (x ∈ l2) as Hin2.
      { eapply (list_elem_of_filter (λ z, key z = key x)).
        rewrite <- Hkx. by left. }
      assert (y ∈ l1) as Hin1.
      { eapply (list_elem_of_filter (λ z, key z = key y)).
        rewrite Hky. by left. }
      rewrite Forall_forall in Hx, Hy.
      specialize (Hx y Hin1). specialize (Hy x Hin2).
      unfold le_key in *. lia. }
    pose proof (Hfilter (key x)) as Hhead.
    rewrite !filter_cons_True in Hhead by done.
    injection Hhead as -> Htail. f_equal.
    apply IH; [done|]. intros k.
    specialize (Hfilter k). rewrite !filter_cons in Hfilter.
    destruct (decide (key y = k)); [by injection Hfilter|done].
Qed.


End StableSortFacts.

(** ** The sequencer *)


Lemma extract_year_field filepath :
  extract_year filepath = default 0 (year_field filepath).
Proof.
  unfold extract_year, year_field.
  destruct (PyStr.last_item _) as [field|]; simpl; [|done].
  by destruct (PyStr.int field).
Qed.

Lemma split_nonempty sep s : PyStr.split sep s ≠ [].
Proof.
  destruct s as [|c s]; simpl; [done|].
  destruct (Ascii.eqb c sep); [done|].
  by destruct (PyStr.split sep s).
Qed.

(** [parts[-1]] never raises: a split has a last field. *)
Lemma last_item_split sep s : is_Some (PyStr.last_item (PyStr.split sep s)).
Proof.
  unfold PyStr.last_item.
  destruct (PyStr.split sep s) as [|x l] eqn:E.
  - by apply split_nonempty in E.
  - rewrite last_is_Some. done.
Qed.




(** ** The overlay *)


Section TwoFreshBuffers.

Context {A : Type} (h : list A) (x y z : A).

Lemma lookup_fresh_0 : (h ++ [x; y]) !! length h = Some x.
Proof. by apply list_lookup_middle. Qed.

Lemma lookup_fresh_1 : (h ++ [x; y]) !! S (length h) = Some y.
Proof.
  rewrite lookup_app_r by lia.
  by replace (S (length h) - length h)%nat with 1%nat by lia.
Qed.

Lemma insert_fresh_0 : <[length h := z]> (h ++ [x; y]) = h ++ [z; y].
Proof.
  rewrite insert_app_r_alt by lia.
  by replace (length h - length h)%nat with 0%nat by lia.
Qed.

Lemma insert_fresh_1 : <[S (length h) := z]> (h ++ [x; y]) = h ++ [x; z].
Proof.
  rewrite insert_app_r_alt by lia.
  by replace (S (length h) - length h)%nat with 1%nat by lia.
Qed.

End TwoFreshBuffers.

(** With [use_cv2] set, the overlay allocates two buffers behind the
    existing ones, the returned frame and the scratch [overlay], and
    touches nothing else. *)
Lemma add_year_overlay_run (W : World) img year s :
  add_year_overlay W img year true s
  = (Return (length (heap s)),
     {| heap := heap s ++ [composite W (content s img) year;
                           cv2px.rectangle (content s img) (10, 10) (200, 80) (0, 0, 0)];
        trace := trace s |}).
Proof.
  destruct s as [h t].
  unfold add_year_overlay, np_copy, cv2_rectangle, cv2_addWeighted, cv2_putText.
  run_monad.
  set (a := default [] (h !! img)).
  rewrite (list_lookup_middle h [] a (length h)) by done. simpl.
  rewrite <- !(assoc_L (++) h). simpl.
  rewrite length_app, Nat.add_1_r.
  rewrite lookup_fresh_1. simpl.
  rewrite insert_fresh_1, lookup_fresh_1, lookup_fresh_0. simpl.
  rewrite insert_fresh_0, lookup_fresh_0. simpl.
  rewrite insert_fresh_0. done.
Qed.

(** Without [use_cv2] the caller gets its own buffer back. *)
Lemma add_year_overlay_passthrough (W : World) img year s :
  add_year_overlay W img year false s = (Return img, s).
Proof. reflexivity. Qed.

Lemma pixel_at_backdrop (a : ndarray) (y x : nat) (p : pixel) :
  pixel_at a y x = Some p →
  pixel_at (backdrop a) y x
  = Some (cv2px.weighted_pixel (7 # 10) (3 # 10) 0
            (if cv2px.in_rect (10, 10) (200, 80) y x then (0, 0, 0) else p) p).
Proof.
  unfold pixel_at, backdrop, cv2px.addWeighted, cv2px.rectangle.
  intros Hp.
  destruct (a !! y) as [row|] eqn:Hrow; simpl in Hp; [|done].
  rewrite lookup_zip_with, list_lookup_imap, Hrow. simpl.
  rewrite lookup_zip_with, list_lookup_imap, Hp. simpl.
  done.
Qed.

(** The weights of the overlay as the blend sees them, and three channels
    on which single precision and exact arithmetic part: 95, 175 and 195
    times 0.3 are 28.5, 52.5 and 58.5, which would round to the even 28, 52
    and 58, but the [float] nearest to 0.3 lies above it. *)
Example overlay_weights :
  cv2px.f32 (cv2px.f64 (7 # 10)) = (11744051 # 16777216)%Q
  ∧ cv2px.f32 (cv2px.f64 (3 # 10)) = (5033165 # 16777216)%Q
  ∧ cv2px.weighted (7 # 10) (3 # 10) 0 0 <$> [95; 175; 195; 100] = [29; 53; 59; 30].
Proof. split_and!; vm_compute; reflexivity. Qed.

(** Blending a channel with itself gives it back. *)
Lemma weighted_same (c : Z) :
  0 ≤ c ≤ 255 → cv2px.weighted (7 # 10) (3 # 10) 0 c c = c.
Proof.
  intros Hc.
  assert (forallb (λ n, cv2px.weighted (7 # 10) (3 # 10) 0 (Z.of_nat n) (Z.of_nat n)
                        =? Z.of_nat n) (seq 0 256) = true) as Hall
    by (vm_compute; reflexivity).
  rewrite forallb_forall in Hall.
  specialize (Hall (Z.to_nat c)). rewrite Z2Nat.id in Hall by lia.
  apply Z.eqb_eq, Hall, in_seq. lia.
Qed.


(** The overlay blends black over the frame inside the rectangle and the
    frame over itself outside: on both, rounding after each operation and
    rounding once per fused multiply-add give the same channel. *)
Lemma weighted_fma_agrees (c : Z) :
  0 ≤ c ≤ 255 →
  cv2px.weighted_fma (7 # 10) (3 # 10) 0 0 c = cv2px.weighted (7 # 10) (3 # 10) 0 0 c
  ∧ cv2px.weighted_fma (7 # 10) (3 # 10) 0 c c = cv2px.weighted (7 # 10) (3 # 10) 0 c c.
Proof.
  intros Hc.
  assert (forallb (λ n, let c := Z.of_nat n in
                        (cv2px.weighted_fma (7 # 10) (3 # 10) 0 0 c
                         =? cv2px.weighted (7 # 10) (3 # 10) 0 0 c)
                        && (cv2px.weighted_fma (7 # 10) (3 # 10) 0 c c
                            =? cv2px.weighted (7 # 10) (3 # 10) 0 c c))
                  (seq 0 256) = true) as Hall by (vm_compute; reflexivity).
  rewrite forallb_forall in Hall.
  specialize (Hall (Z.to_nat c)). rewrite Z2Nat.id in Hall by lia.
  cbv zeta in Hall.
  assert (In (Z.to_nat c) (seq 0 256)) as Hin by (apply in_seq; lia).
  apply Hall in Hin. apply andb_prop in Hin as [H1 H2].
  by apply Z.eqb_eq in H1, H2.
Qed.

(** C8 as stated fails: in an 11 by 11 frame of grey 100 the pixel at row 10,
    column 10 lies in the rectangle and comes out as 30, the value for a
    rectangle of weight 0.7, where a weight of 0.2 would give 80. *)
Lemma rectangle_weight_is_not_one_fifth :
  let a := Sample.gray 11 11 100 in
  let run := add_year_overlay Sample.quiet 0 2020 true
               {| heap := [a]; trace := [] |} in
  pixel_at a 10 10 = Some (100, 100, 100)
  ∧ cv2px.in_rect (10, 10) (200, 80) 10 10 = true
  ∧ run.1 = Return 1%nat
  ∧ pixel_at (content run.2 1) 10 10 = Some (30, 30, 30)
  ∧ pixel_at (content run.2 1) 10 10
    ≠ Some (cv2px.weighted_pixel (2 # 10) (8 # 10) 0 (0, 0, 0) (100, 100, 100)).
Proof. cbv zeta. split_and!; [vm_compute; reflexivity..|vm_compute; discriminate]. Qed.

(** C8, amended. The frame [add_year_overlay] returns is the text drawn over
    a backdrop in which the black rectangle weighs 0.7 and the frame 0.3:
    in the backdrop a pixel between the corners (10, 10) and (200, 80), the
    same for every frame, is the single-precision weighted sum of black and
    itself, and a pixel outside is blended with itself, which for 8-bit
    channels gives it back. What the text then changes of the backdrop is
    the rasteriser's doing and is not described here. *)
Theorem overlay_rectangle_weight (W : World) (img : ref) (year : Z) (s : state)
    (y x : nat) (p : pixel) :
  pixel_at (content s img) y x = Some p →
  ∃ frame s',
    add_year_overlay W img year true s = (Return frame, s')
    ∧ content s' frame
      = putText W (backdrop (content s img)) (PyStr.str year) (20, 50)
                FONT_HERSHEY_SIMPLEX 2 (255, 255, 255) 3
    ∧ pixel_at (backdrop (content s img)) y x
      = Some (if cv2px.in_rect (10, 10) (200, 80) y x
              then cv2px.weighted_pixel (7 # 10) (3 # 10) 0 (0, 0, 0) p
              else cv2px.weighted_pixel (7 # 10) (3 # 10) 0 p p)
    ∧ (0 ≤ p.1.1 ≤ 255 → 0 ≤ p.1.2 ≤ 255 → 0 ≤ p.2 ≤ 255 →
       cv2px.weighted_pixel (7 # 10) (3 # 10) 0 p p = p).
Proof.
  intros Hp. eexists _, _. split; [apply add_year_overlay_run|].
  split_and!.
  - unfold content at 1. simpl. by rewrite lookup_fresh_0.
  - rewrite (pixel_at_backdrop _ _ _ p Hp). by destruct (cv2px.in_rect _ _ _ _).
  - destruct p as [[b g] r]. simpl. intros Hb Hg Hr.
    by rewrite !weighted_same.
Qed.

Lemma overlay_rectangle_weight_witness :
  ∃ frame s',
    add_year_overlay Sample.quiet 0 2020 true
      {| heap := [Sample.gray 11 11 100]; trace := [] |} = (Return frame, s')
    ∧ content s' frame
      = putText Sample.quiet
          (backdrop (content {| heap := [Sample.gray 11 11 100]; trace := [] |} 0))
          (PyStr.str 2020) (20, 50) FONT_HERSHEY_SIMPLEX 2 (255, 255, 255) 3
    ∧ pixel_at (backdrop (content {| heap := [Sample.gray 11 11 100]; trace := [] |} 0))
        10 10
      = Some (if cv2px.in_rect (10, 10) (200, 80) 10 10
              then cv2px.weighted_pixel (7 # 10) (3 # 10) 0 (0, 0, 0) (100, 100, 100)
              else cv2px.weighted_pixel (7 # 10) (3 # 10) 0
                     (100, 100, 100) (100, 100, 100))
    ∧ (0 ≤ 100 ≤ 255 → 0 ≤ 100 ≤ 255 → 0 ≤ 100 ≤ 255 →
       cv2px.weighted_pixel (7 # 10) (3 # 10) 0 (100, 100, 100) (100, 100, 100)
       = (100, 100, 100)).
Proof.
  apply (overlay_rectangle_weight Sample.quiet 0 2020
           {| heap := [Sample.gray 11 11 100]; trace := [] |} 10 10 (100, 100, 100)).
  vm_compute. reflexivity.
Defined.

(** C10. Called on a live buffer (with [use_cv2] at its default), the overlay
    returns a reference that did not exist before the call, holding the
    composited frame, and every buffer that existed, the input among them,
    holds after the call the pixels it held before. *)
Theorem add_year_overlay_fresh_frame (W : World) (img : ref) (year : Z)
    (s : state) (a : ndarray) :
  heap s !! img = Some a →
  ∃ frame s',
    add_year_overlay W img year true s = (Return frame, s')
    ∧ heap s !! frame = None
    ∧ frame ≠ img
    ∧ heap s' !! frame = Some (composite W a year)
    ∧ heap s' !! img = Some a
    ∧ (∀ r b, heap s !! r = Some b → heap s' !! r = Some b)
    ∧ trace s' = trace s.
Proof.
  intros Ha. eexists _, _. split; [apply add_year_overlay_run|].
  pose proof (lookup_lt_Some _ _ _ Ha) as Hlt.
  assert (∀ r b, heap s !! r = Some b →
                 (heap s ++ [composite W (content s img) year;
                             cv2px.rectangle (content s img) (10, 10) (200, 80) (0, 0, 0)])
                   !! r = Some b) as Hold.
  { intros r b Hr. by apply lookup_app_l_Some. }
  simpl. split_and!.
  - apply lookup_ge_None. lia.
  - lia.
  - rewrite lookup_fresh_0. unfold content. by rewrite Ha.
  - by apply Hold.
  - exact Hold.
  - done.
Qed.

Lemma add_year_overlay_fresh_frame_witness :
  ∃ frame s',
    add_year_overlay Sample.quiet 0 1850 true
      {| heap := [Sample.gray 2 2 100]; trace := [] |} = (Return frame, s')
    ∧ heap {| heap := [Sample.gray 2 2 100]; trace := [] |} !! frame = None
    ∧ frame ≠ 0%nat
    ∧ heap s' !! frame = Some (composite Sample.quiet (Sample.gray 2 2 100) 1850)
    ∧ heap s' !! 0%nat = Some (Sample.gray 2 2 100)
    ∧ (∀ r b, heap {| heap := [Sample.gray 2 2 100]; trace := [] |} !! r = Some b →
              heap s' !! r = Some b)
    ∧ trace s' = trace {| heap := [Sample.gray 2 2 100]; trace := [] |}.
Proof.
  apply (add_year_overlay_fresh_frame Sample.quiet 0 1850
           {| heap := [Sample.gray 2 2 100]; trace := [] |} (Sample.gray 2 2 100)).
  reflexivity.
Defined.

(** ** What a computation adds to the trace *)


Section Emits.

Context (P : event → Prop).

Lemma emits_silent {A} (m : M A) :
  (∀ s, trace (m s).2 = trace s) → emits P m.
Proof. intros Hm s. exists []. by rewrite Hm, app_nil_r. Qed.

Lemma emits_ret {A} (a : A) : emits P (mret a).
Proof. by apply emits_silent. Qed.

Lemma emits_raise {A} e : emits P (@raise A e).
Proof. by apply emits_silent. Qed.

Lemma emits_lift {A} (o : outcome A) : emits P (lift o).
Proof. by apply emits_silent. Qed.

Lemma emits_load r : emits P (load r).
Proof. by apply emits_silent. Qed.

Lemma emits_store r a : emits P (store r a).
Proof. by apply emits_silent. Qed.

Lemma emits_alloc a : emits P (alloc a).
Proof. by apply emits_silent. Qed.

Lemma emits_get_trace : emits P get_trace.
Proof. by apply emits_silent. Qed.

Lemma emits_emit e : P e → emits P (emit e).
Proof. intros He s. exists [e]. split; [done|]. by constructor. Qed.

Lemma emits_bind {A B} (m : M A) (k : A → M B) :
  emits P m → (∀ a, emits P (k a)) → emits P (m ≫= k).
Proof.
  intros Hm Hk s. unfold mbind, M_bind.
  destruct (Hm s) as (evs1 & Ht1 & HP1).
  destruct (m s) as [[a|e] s1]; simpl in *.
  - destruct (Hk a s1) as (evs2 & Ht2 & HP2).
    exists (evs1 ++ evs2). split.
    + by rewrite Ht2, Ht1, (assoc_L (++)).
    + by apply Forall_app.
  - by exists evs1.
Qed.

Lemma emits_for_each {A} (body : A → M unit) l :
  (∀ x, emits P (body x)) → emits P (for_each body l).
Proof.
  intros Hbody. induction l as [|x l IH]; simpl.
  - apply emits_ret.
  - apply emits_bind; [apply Hbody | intros _; apply IH].
Qed.

End Emits.


Section ProgramFacts.

Context (W : World).

Lemma cv2_imread_emits P filename : emits P (cv2_imread W filename).
Proof.
  apply emits_bind; [apply emits_lift|].
  intros [a|]; [|apply emits_ret].
  apply emits_bind; [apply emits_alloc | intros; apply emits_ret].
Qed.

Lemma cv2_resize_emits P src dsize : emits P (cv2_resize W src dsize).
Proof.
  apply emits_bind; [apply emits_load|]. intros a.
  apply emits_bind; [apply emits_lift | intros; apply emits_alloc].
Qed.

Lemma add_year_overlay_emits P img year use_cv2 :
  emits P (add_year_overlay W img year use_cv2).
Proof.
  apply emits_silent. intros s. destruct use_cv2.
  - by rewrite add_year_overlay_run.
  - done.
Qed.

Lemma VideoWriter_write_emits vw image :
  emits body_event (VideoWriter_write W vw image).
Proof.
  unfold VideoWriter_write. destruct (isOpened vw); [|apply emits_ret].
  apply emits_bind; [apply emits_load|]. intros frame.
  apply emits_bind; [apply emits_get_trace|]. intros past.
  destruct (writer_fault W past frame); [apply emits_raise|].
  by apply emits_emit.
Qed.

Lemma encode_image_emits vw height width fps item :
  emits body_event (encode_image W vw height width fps item).
Proof.
  destruct item as [image_file year]. unfold encode_image.
  apply emits_bind; [apply cv2_imread_emits|].
  intros [img|]; [|by apply emits_emit].
  apply emits_bind; [apply emits_load|]. intros a.
  apply emits_bind.
  { case_bool_decide; [apply cv2_resize_emits | apply emits_ret]. }
  intros img'.
  apply emits_bind; [apply add_year_overlay_emits|]. intros frame.
  apply emits_for_each. intros _. apply VideoWriter_write_emits.
Qed.

(** [try: body finally: video_writer.release()]: the release comes after
    all that the body did, whatever the body's outcome, which is then the
    outcome of the whole. *)
Lemma try_finally_release {A} (body : M A) vw s :
  try_finally body (VideoWriter_release vw) s
  = ((body s).1,
     {| heap := heap (body s).2; trace := trace (body s).2 ++ [EvRelease] |}).
Proof. unfold try_finally. by destruct (body s) as [r s1]. Qed.

End ProgramFacts.

(** ** The encoder *)


Lemma releases_body body : Forall body_event body → releases body = 0%nat.
Proof.
  unfold releases. induction 1 as [|e body [He _] _ IH]; [done|].
  rewrite filter_cons_False by (by rewrite He). done.
Qed.

Lemma cv2_imread_decoded (W : World) filename a s :
  imread W filename = Return (Some a) →
  cv2_imread W filename s
  = (Return (Some (length (heap s))),
     {| heap := heap s ++ [a]; trace := trace s |}).
Proof. intros H. unfold cv2_imread. run_monad. by rewrite H. Qed.

Lemma cv2_imread_undecoded (W : World) filename s :
  imread W filename = Return None →
  cv2_imread W filename s = (Return None, s).
Proof. intros H. unfold cv2_imread. run_monad. by rewrite H. Qed.

Lemma content_fresh h t (a : ndarray) :
  content {| heap := h ++ [a]; trace := t |} (length h) = a.
Proof. unfold content. simpl. by rewrite list_lookup_middle. Qed.

(** The run of [create_mp4_timelapse] once the first image is decoded and
    the writer constructed: the loop from the state with the reference
    image allocated and the opening recorded, then the release. *)
Lemma create_mp4_timelapse_opened (W : World) first_file rest years
    output_path fps s a opened :
  imread W first_file = Return (Some a) →
  writer_open W output_path "mp4v" fps ((shape a).2, (shape a).1) = Return opened →
  let s1 := {| heap := heap s ++ [a];
               trace := trace s ++ [EvOpen output_path "mp4v" fps
                                      ((shape a).2, (shape a).1) opened] |} in
  let body := for_each (encode_image W {| isOpened := opened |}
                          (shape a).1 (shape a).2 fps)
                       (zip (first_file :: rest) years) s1 in
  create_mp4_timelapse W (first_file :: rest) years output_path fps s
  = match body.1 with
    | Return _ =>
        (Return output_path,
         {| heap := heap body.2;
            trace := trace body.2
                     ++ [EvRelease;
                         EvLog INFO ("Created MP4 timelapse: " +:+ output_path)] |})
    | Raise e =>
        (Raise e, {| heap := heap body.2; trace := trace body.2 ++ [EvRelease] |})
    end.
Proof.
  intros Hread Hopen s1 body.
  unfold create_mp4_timelapse.
  unfold mbind at 1, M_bind at 1.
  rewrite (cv2_imread_decoded W first_file a s Hread).
  unfold mbind at 1, M_bind at 1, load at 1.
  rewrite content_fresh.
  destruct (shape a) as [height width] eqn:Hshape. simpl in Hopen.
  unfold VideoWriter_new.
  unfold mbind at 1, M_bind at 1, mbind at 1, M_bind at 1, lift.
  rewrite Hopen.
  unfold mbind at 1, M_bind at 1, emit at 1, mret at 1, M_ret at 1.
  cbn [heap trace].
  unfold mbind at 1, M_bind at 1.
  rewrite try_finally_release.
  subst s1 body. cbn [fst snd].
  destruct (for_each _ _ _) as [[[]|e] s2]; simpl; [|done].
  unfold logger_info. run_monad.
  by rewrite <- (assoc_L (++)).
Qed.

(** C1. Once the first image is decoded and the writer's constructor has
    returned (the container opened or not), the run adds to the trace the
    opening, then only frames and log lines, then one release, then the
    closing log line when it returns and nothing when it raises: one
    release on every path, after every write and before the error leaves
    the function. *)
Theorem container_released_exactly_once (W : World) (first_file : Path)
    (rest : list Path) (years : list Z) (output_path : Path) (fps : Z)
    (s : state) (a : ndarray) (opened : bool) :
  imread W first_file = Return (Some a) →
  writer_open W output_path "mp4v" fps ((shape a).2, (shape a).1) = Return opened →
  let run := create_mp4_timelapse W (first_file :: rest) years output_path fps s in
  ∃ body,
    trace run.2
    = trace s
      ++ EvOpen output_path "mp4v" fps ((shape a).2, (shape a).1) opened
      :: body
      ++ EvRelease
      :: match run.1 with
         | Return _ => [EvLog INFO ("Created MP4 timelapse: " +:+ output_path)]
         | Raise _ => []
         end
    ∧ Forall body_event body
    ∧ releases (drop (length (trace s)) (trace run.2)) = 1%nat
    ∧ (run.1 = Return output_path ∨ ∃ e, run.1 = Raise e).
Proof.
  intros Hread Hopen run. subst run.
  rewrite (create_mp4_timelapse_opened W first_file rest years output_path
             fps s a opened Hread Hopen).
  cbv zeta.
  match goal with |- context [for_each ?f ?l ?s1] =>
    destruct (emits_for_each body_event f l
                (encode_image_emits W _ _ _ fps) s1) as (body & Ht & Hbody);
    destruct (for_each f l s1) as [r s2]
  end.
  simpl in Ht. exists body.
  assert (∀ tail, Forall body_event tail →
            releases (drop (length (trace s))
                        (trace s ++ EvOpen output_path "mp4v" fps
                                      ((shape a).2, (shape a).1) opened
                                    :: body ++ EvRelease :: tail)) = 1%nat) as Hone.
  { intros tail Htail. rewrite drop_app_length. unfold releases.
    rewrite filter_cons_False by done.
    rewrite filter_app, filter_cons_True by done.
    rewrite length_app. simpl.
    fold (releases body). fold (releases tail).
    rewrite !releases_body by done. done. }
  destruct r as [[]|e]; simpl; rewrite Ht, <- !(assoc_L (++)); simpl.
  - split_and!; [done|done| |by left].
    apply Hone. by repeat constructor.
  - split_and!; [done|done| |by right; exists e].
    apply Hone. constructor.
Qed.

Lemma container_released_exactly_once_witness :
  let W := Sample.world (λ _, false) true
             (λ past, if bool_decide (1 ≤ length (frames_of past))%nat
                      then Some (cv2_error "write failed") else None) in
  let a := Sample.gray 2 2 100 in
  let run := create_mp4_timelapse W ["img_1_2_3_1850.png"; "img_1_2_3_1950.png"]
               [1850; 1950] "timelapse_web_0.mp4" 1 Sample.start in
  ∃ body,
    trace run.2
    = trace Sample.start
      ++ EvOpen "timelapse_web_0.mp4" "mp4v" 1 ((shape a).2, (shape a).1) true
      :: body
      ++ EvRelease
      :: match run.1 with
         | Return _ => [EvLog INFO ("Created MP4 timelapse: " +:+ "timelapse_web_0.mp4")]
         | Raise _ => []
         end
    ∧ Forall body_event body
    ∧ releases (drop (length (trace Sample.start)) (trace run.2)) = 1%nat
    ∧ (run.1 = Return "timelapse_web_0.mp4" ∨ ∃ e, run.1 = Raise e).
Proof.
  cbv zeta.
  apply (container_released_exactly_once
           (Sample.world (λ _, false) true
              (λ past, if bool_decide (1 ≤ length (frames_of past))%nat
                       then Some (cv2_error "write failed") else None))
           "img_1_2_3_1850.png" ["img_1_2_3_1950.png"] [1850; 1950]
           "timelapse_web_0.mp4" 1 Sample.start (Sample.gray 2 2 100) true);
    reflexivity.
Defined.

(** On that run the second write fails: one frame, the release, the error. *)
Example failed_write_is_released :
  let W := Sample.world (λ _, false) true
             (λ past, if bool_decide (1 ≤ length (frames_of past))%nat
                      then Some (cv2_error "write failed") else None) in
  let run := create_mp4_timelapse W ["img_1_2_3_1850.png"; "img_1_2_3_1950.png"]
               [1850; 1950] "timelapse_web_0.mp4" 1 Sample.start in
  run.1 = Raise (cv2_error "write failed")
  ∧ is_release <$> trace run.2 = [false; false; true].
Proof. cbv zeta. split; vm_compute; reflexivity. Qed.

(** ** Runs in which nothing raises *)


Section Faultless.

Context (W : World) (Hfaultless : faultless W).

Lemma write_loop_run opened image start n s :
  for_each (λ _ : nat, VideoWriter_write W {| isOpened := opened |} image)
           (seq start n) s
  = (Return (),
     {| heap := heap s;
        trace := trace s ++ (if opened
                             then replicate n (EvWrite (content s image))
                             else []) |}).
Proof.
  destruct Hfaultless as (_ & _ & Hwrite).
  revert start s. induction n as [|n IH]; intros start s.
  - destruct s as [h t]. simpl. destruct opened; by rewrite app_nil_r.
  - simpl. unfold mbind at 1, M_bind at 1.
    unfold VideoWriter_write at 1. destruct opened; simpl.
    + run_monad. rewrite Hwrite. simpl.
      rewrite IH. simpl. by rewrite <- (assoc_L (++)).
    + run_monad. rewrite IH. done.
Qed.

Lemma encode_image_run opened height width fps item s :
  ∃ s', encode_image W {| isOpened := opened |} height width fps item s
        = (Return (), s')
        ∧ trace s' = trace s ++ item_events W opened height width fps item.
Proof.
  destruct Hfaultless as (Hread & Hresize & _).
  destruct item as [image_file year].
  unfold encode_image, item_events, item_frames, decoded. cbn [fst snd].
  destruct (Hread image_file) as [[b|] Hb]; rewrite Hb.
  - unfold mbind at 1, M_bind at 1.
    rewrite (cv2_imread_decoded W image_file b s Hb).
    unfold mbind at 1, M_bind at 1, load at 1. rewrite content_fresh.
    unfold normalized. case_bool_decide as Hshape.
    + unfold mbind at 1, M_bind at 1, cv2_resize.
      unfold mbind at 1, M_bind at 1, load at 1. rewrite content_fresh.
      unfold resized. destruct (Hresize b (width, height)) as [b' Hb'].
      rewrite Hb'. unfold mbind at 1, M_bind at 1, lift, alloc. cbn [heap trace].
      unfold mbind at 1, M_bind at 1.
      rewrite add_year_overlay_run. cbn [heap trace].
      rewrite write_loop_run. cbn [heap trace].
      eexists. split; [reflexivity|]. cbn [trace]. f_equal.
      rewrite content_fresh.
      unfold content at 1. cbn [heap]. rewrite lookup_fresh_0. simpl.
      destruct opened; [|done]. by rewrite fmap_replicate.
    + unfold mbind at 1, M_bind at 1, mret at 1, M_ret at 1.
      unfold mbind at 1, M_bind at 1.
      rewrite add_year_overlay_run. cbn [heap trace].
      rewrite write_loop_run. cbn [heap trace].
      eexists. split; [reflexivity|]. cbn [trace]. f_equal.
      rewrite content_fresh.
      unfold content at 1. cbn [heap]. rewrite lookup_fresh_0. simpl.
      destruct opened; [|done]. by rewrite fmap_replicate.
  - unfold mbind at 1, M_bind at 1.
    rewrite (cv2_imread_undecoded W image_file s Hb).
    eexists. split; reflexivity.
Qed.

Lemma encode_loop_run opened height width fps items s :
  ∃ s', for_each (encode_image W {| isOpened := opened |} height width fps)
                 items s
        = (Return (), s')
        ∧ trace s' = trace s ++ flat_map (item_events W opened height width fps) items.
Proof.
  revert s. induction items as [|item items IH]; intros s.
  - exists s. split; [done|]. simpl. by rewrite app_nil_r.
  - simpl. unfold mbind at 1, M_bind at 1.
    destruct (encode_image_run opened height width fps item s) as (s1 & -> & Ht1).
    destruct (IH s1) as (s2 & -> & Ht2).
    exists s2. split; [done|]. by rewrite Ht2, Ht1, (assoc_L (++)).
Qed.

(** The whole run: the opening, the events of each pair in order, the
    release, the closing log line; the output path is returned. *)
Lemma create_mp4_timelapse_run first_file rest years output_path fps s a opened :
  imread W first_file = Return (Some a) →
  writer_open W output_path "mp4v" fps ((shape a).2, (shape a).1) = Return opened →
  ∃ s', create_mp4_timelapse W (first_file :: rest) years output_path fps s
        = (Return output_path, s')
        ∧ trace s'
          = trace s
            ++ EvOpen output_path "mp4v" fps ((shape a).2, (shape a).1) opened
            :: flat_map (item_events W opened (shape a).1 (shape a).2 fps)
                        (zip (first_file :: rest) years)
            ++ [EvRelease;
                EvLog INFO ("Created MP4 timelapse: " +:+ output_path)].
Proof.
  intros Hread Hopen.
  rewrite (create_mp4_timelapse_opened W first_file rest years output_path
             fps s a opened Hread Hopen).
  cbv zeta.
  match goal with |- context [for_each ?f ?l ?s1] =>
    destruct (encode_loop_run opened (shape a).1 (shape a).2 fps l s1)
      as (s2 & -> & Ht)
  end.
  simpl in *. eexists. split; [reflexivity|]. simpl.
  rewrite Ht, <- !(assoc_L (++)). done.
Qed.

End Faultless.


Lemma added_app s s' evs : trace s' = trace s ++ evs → added s s' = evs.
Proof. intros H. unfold added. by rewrite H, drop_app_length. Qed.

Lemma frames_of_app t1 t2 : frames_of (t1 ++ t2) = frames_of t1 ++ frames_of t2.
Proof. apply omap_app. Qed.

Lemma frames_of_writes l : frames_of (EvWrite <$> l) = l.
Proof.
  induction l as [|f l IH]; [done|].
  unfold frames_of in *. rewrite fmap_cons. simpl. by f_equal.
Qed.

Lemma frames_of_item_events W opened height width fps item :
  frames_of (item_events W opened height width fps item)
  = if opened then item_frames W height width fps item else [].
Proof.
  unfold item_events, item_frames.
  destruct (decoded W item.1); simpl.
  - destruct opened; [apply frames_of_writes | done].
  - by destruct opened.
Qed.

Lemma frames_of_loop W opened height width fps items :
  frames_of (flat_map (item_events W opened height width fps) items)
  = if opened then flat_map (item_frames W height width fps) items else [].
Proof.
  induction items as [|item items IH]; simpl; [by destruct opened|].
  rewrite frames_of_app, IH, frames_of_item_events. by destruct opened.
Qed.

Lemma frames_of_run W opened height width fps items ev_open msg :
  is_write ev_open = false →
  frames_of (ev_open :: flat_map (item_events W opened height width fps) items
               ++ [EvRelease; EvLog INFO msg])
  = if opened then flat_map (item_frames W height width fps) items else [].
Proof.
  intros Hopen.
  change (?e :: ?l ++ ?k) with ([e] ++ l ++ k).
  rewrite !frames_of_app, frames_of_loop.
  destruct ev_open; try done; simpl; by rewrite app_nil_r.
Qed.

Lemma files_created_loop W opened height width fps items :
  files_created (flat_map (item_events W opened height width fps) items) = [].
Proof.
  induction items as [|item items IH]; simpl; [done|].
  unfold files_created in *. rewrite omap_app, IH, app_nil_r.
  unfold item_events. destruct (decoded W item.1); [|done].
  destruct opened; [|done].
  induction (item_frames W height width fps item); simpl; done.
Qed.

Lemma length_item_frames W height width fps items :
  length (flat_map (item_frames W height width fps) items)
  = (Z.to_nat (frame_duration fps)
     * length (filter (λ f, is_Some (decoded W f)) (items.*1)))%nat.
Proof.
  induction items as [|[f year] items IH]; [simpl; lia|].
  cbn [flat_map]. rewrite fmap_cons. cbn [fst].
  rewrite length_app, IH. unfold item_frames at 1. cbn [fst snd].
  destruct (decoded W f) as [b|] eqn:Hf.
  - rewrite filter_cons_True by (by rewrite Hf).
    rewrite length_replicate. cbn [length]. rewrite Nat.mul_succ_r. lia.
  - rewrite filter_cons_False by (rewrite Hf; by intros []).
    done.
Qed.

(** C2 as stated fails at the first position: when the first image does not
    decode the job raises [ValueError] before anything is opened or
    written, although the second image would decode. *)
Lemma first_image_undecodable_aborts :
  let W := Sample.world (λ p, String.eqb p "img_1_2_3_1850.png") true (λ _, None) in
  imread W "img_1_2_3_1850.png" = Return None
  ∧ imread W "img_1_2_3_1950.png" = Return (Some (Sample.gray 2 2 100))
  ∧ create_mp4_timelapse W ["img_1_2_3_1850.png"; "img_1_2_3_1950.png"]
      [1850; 1950] "timelapse_web_0.mp4" 1 Sample.start
    = (Raise (ValueError "Could not read image: img_1_2_3_1850.png"), Sample.start).
Proof. cbv zeta. split_and!; vm_compute; reflexivity. Qed.

(** C2, amended. When the first image decodes, the container opens and
    nothing raises, an image that fails to decode at any position of the
    loop is skipped with a warning: the job returns the output path, and the
    frames written are those of the images that decode, in order. *)
Theorem undecodable_image_is_skipped (W : World) (first_file : Path)
    (rest : list Path) (years : list Z) (output_path : Path) (fps : Z)
    (s : state) (a : ndarray) (i : nat) (f : Path) (year : Z) :
  faultless W →
  imread W first_file = Return (Some a) →
  writer_open W output_path "mp4v" fps ((shape a).2, (shape a).1) = Return true →
  zip (first_file :: rest) years !! i = Some (f, year) →
  imread W f = Return None →
  ∃ s',
    create_mp4_timelapse W (first_file :: rest) years output_path fps s
    = (Return output_path, s')
    ∧ EvLog WARNING ("Could not read image: " +:+ f) ∈ added s s'
    ∧ item_frames W (shape a).1 (shape a).2 fps (f, year) = []
    ∧ frames_of (added s s')
      = flat_map (item_frames W (shape a).1 (shape a).2 fps)
                 (zip (first_file :: rest) years).
Proof.
  intros HW Hread Hopen Hi Hf.
  destruct (create_mp4_timelapse_run W HW first_file rest years output_path
              fps s a true Hread Hopen) as (s' & Hrun & Ht).
  exists s'. rewrite (added_app _ _ _ Ht). split_and!; [done| | |].
  - apply elem_of_cons. right. apply elem_of_app. left.
    apply list_elem_of_In, in_flat_map. exists (f, year). split.
    + apply list_elem_of_In. by eapply list_elem_of_lookup_2.
    + unfold item_events, decoded. simpl. rewrite Hf. by left.
  - unfold item_frames, decoded. simpl. by rewrite Hf.
  - by rewrite frames_of_run.
Qed.

Lemma undecodable_image_is_skipped_witness :
  let W := Sample.world (λ p, String.eqb p "img_1_2_3_1950.png") true (λ _, None) in
  ∃ s',
    create_mp4_timelapse W ["img_1_2_3_1850.png"; "img_1_2_3_1950.png"]
      [1850; 1950] "timelapse_web_0.mp4" 1 Sample.start
    = (Return "timelapse_web_0.mp4", s')
    ∧ EvLog WARNING ("Could not read image: " +:+ "img_1_2_3_1950.png")
      ∈ added Sample.start s'
    ∧ item_frames W (shape (Sample.gray 2 2 100)).1 (shape (Sample.gray 2 2 100)).2 1
        ("img_1_2_3_1950.png", 1950) = []
    ∧ frames_of (added Sample.start s')
      = flat_map (item_frames W (shape (Sample.gray 2 2 100)).1
                    (shape (Sample.gray 2 2 100)).2 1)
                 (zip ["img_1_2_3_1850.png"; "img_1_2_3_1950.png"] [1850; 1950]).
Proof.
  cbv zeta.
  apply (undecodable_image_is_skipped
           (Sample.world (λ p, String.eqb p "img_1_2_3_1950.png") true (λ _, None))
           "img_1_2_3_1850.png" ["img_1_2_3_1950.png"] [1850; 1950]
           "timelapse_web_0.mp4" 1 Sample.start (Sample.gray 2 2 100) 1
           "img_1_2_3_1950.png" 1950).
  - split_and!; intros; eexists; reflexivity || reflexivity.
  - reflexivity.
  - reflexivity.
  - reflexivity.
  - reflexivity.
Defined.

(** C3 as stated fails from 2 fps on: at 2 fps an image is written once,
    where two seconds of display would take [max(1, 2 * 2) = 4] writes. *)
Lemma two_fps_writes_each_image_once :
  let run := create_mp4_timelapse Sample.quiet ["img_1_2_3_1850.png"] [1850]
               "timelapse_web_0.mp4" 2 Sample.start in
  run.1 = Return "timelapse_web_0.mp4"
  ∧ length (frames_of (trace run.2)) = 1%nat
  ∧ frame_duration 2 = 1
  ∧ Z.max 1 (2 * 2) = 4.
Proof. cbv zeta. split_and!; vm_compute; reflexivity. Qed.

(** C3, amended. In a run where the first image decodes and nothing
    raises, the frames written to a container that opened are, pair by pair
    of an image and its year in loop order, the composited frame of each
    decoded image repeated 2 times when fps is 1 and [max(1, fps // 2)]
    times otherwise; at 1 fps that is [max(1, 2 * fps)]. A container that
    did not open takes no frame at all. *)
Theorem frames_written_per_image (W : World) (first_file : Path)
    (rest : list Path) (years : list Z) (output_path : Path) (fps : Z)
    (s : state) (a : ndarray) (opened : bool) :
  faultless W →
  imread W first_file = Return (Some a) →
  writer_open W output_path "mp4v" fps ((shape a).2, (shape a).1) = Return opened →
  ∃ s',
    create_mp4_timelapse W (first_file :: rest) years output_path fps s
    = (Return output_path, s')
    ∧ frames_of (added s s')
      = (if opened
         then flat_map
                (λ item,
                   match decoded W item.1 with
                   | Some b =>
                       replicate
                         (Z.to_nat (if fps =? 1 then 2 else Z.max 1 (fps / 2)))
                         (composite W (normalized W (shape a).1 (shape a).2 b)
                                    item.2)
                   | None => []
                   end)
                (zip (first_file :: rest) years)
         else [])
    ∧ (fps = 1 → frame_duration fps = Z.max 1 (2 * fps)).
Proof.
  intros HW Hread Hopen.
  destruct (create_mp4_timelapse_run W HW first_file rest years output_path
              fps s a opened Hread Hopen) as (s' & Hrun & Ht).
  exists s'. rewrite (added_app _ _ _ Ht). split_and!; [done| |by intros ->].
  by rewrite frames_of_run.
Qed.

Lemma quiet_faultless : faultless Sample.quiet.
Proof. split_and!; intros; try eexists; reflexivity. Defined.

Lemma frames_written_per_image_witness :
  ∃ s',
    create_mp4_timelapse Sample.quiet ["img_1_2_3_1850.png"; "img_1_2_3_1950.png"]
      [1850; 1950] "timelapse_web_0.mp4" 30 Sample.start
    = (Return "timelapse_web_0.mp4", s')
    ∧ frames_of (added Sample.start s')
      = (if true
         then flat_map
                (λ item,
                   match decoded Sample.quiet item.1 with
                   | Some b =>
                       replicate
                         (Z.to_nat (if 30 =? 1 then 2 else Z.max 1 (30 / 2)))
                         (composite Sample.quiet
                            (normalized Sample.quiet
                               (shape (Sample.gray 2 2 100)).1
                               (shape (Sample.gray 2 2 100)).2 b)
                            item.2)
                   | None => []
                   end)
                (zip ["img_1_2_3_1850.png"; "img_1_2_3_1950.png"] [1850; 1950])
         else [])
    ∧ (30 = 1 → frame_duration 30 = Z.max 1 (2 * 30)).
Proof.
  apply (frames_written_per_image Sample.quiet "img_1_2_3_1850.png"
           ["img_1_2_3_1950.png"] [1850; 1950] "timelapse_web_0.mp4" 30
           Sample.start (Sample.gray 2 2 100) true);
    [exact quiet_faultless | reflexivity | reflexivity].
Defined.

(** C7. At 1 fps, in a run where the container opens and nothing raises, the
    video holds two frames for each image of the sequence that decodes. *)
Theorem two_frames_per_decoded_image (W : World) (first_file : Path)
    (rest : list Path) (years : list Z) (output_path : Path)
    (s : state) (a : ndarray) :
  faultless W →
  imread W first_file = Return (Some a) →
  writer_open W output_path "mp4v" 1 ((shape a).2, (shape a).1) = Return true →
  length years = length (first_file :: rest) →
  ∃ s',
    create_mp4_timelapse W (first_file :: rest) years output_path 1 s
    = (Return output_path, s')
    ∧ length (frames_of (added s s'))
      = (2 * length (filter (λ f, is_Some (decoded W f)) (first_file :: rest)))%nat.
Proof.
  intros HW Hread Hopen Hlen.
  destruct (create_mp4_timelapse_run W HW first_file rest years output_path
              1 s a true Hread Hopen) as (s' & Hrun & Ht).
  exists s'. rewrite (added_app _ _ _ Ht). split; [done|].
  rewrite frames_of_run by done.
  rewrite length_item_frames, fst_zip by lia. done.
Qed.

Lemma two_frames_per_decoded_image_witness :
  let W := Sample.world (λ p, String.eqb p "img_1_2_3_1900.png") true (λ _, None) in
  ∃ s',
    create_mp4_timelapse W
      ["img_1_2_3_1850.png"; "img_1_2_3_1900.png"; "img_1_2_3_1950.png"]
      [1850; 1900; 1950] "timelapse_web_0.mp4" 1 Sample.start
    = (Return "timelapse_web_0.mp4", s')
    ∧ length (frames_of (added Sample.start s'))
      = (2 * length (filter (λ f, is_Some (decoded W f))
                       ["img_1_2_3_1850.png"; "img_1_2_3_1900.png";
                        "img_1_2_3_1950.png"]))%nat.
Proof.
  cbv zeta.
  apply (two_frames_per_decoded_image
           (Sample.world (λ p, String.eqb p "img_1_2_3_1900.png") true (λ _, None))
           "img_1_2_3_1850.png" ["img_1_2_3_1900.png"; "img_1_2_3_1950.png"]
           [1850; 1900; 1950] "timelapse_web_0.mp4" Sample.start
           (Sample.gray 2 2 100));
    [split_and!; intros; try eexists; reflexivity
    | reflexivity | reflexivity | reflexivity].
Defined.

Example two_frames_per_decoded_image_count :
  let W := Sample.world (λ p, String.eqb p "img_1_2_3_1900.png") true (λ _, None) in
  length (frames_of (trace (create_mp4_timelapse W
      ["img_1_2_3_1850.png"; "img_1_2_3_1900.png"; "img_1_2_3_1950.png"]
      [1850; 1900; 1950] "timelapse_web_0.mp4" 1 Sample.start).2)) = 4%nat.
Proof. vm_compute. reflexivity. Qed.

(** C9 as stated fails: with a writer that does not open the run raises
    nothing and returns the output path, no frame having been written. *)
Lemma unopened_container_raises_nothing :
  let W := Sample.world (λ _, false) false (λ _, None) in
  let run := create_mp4_timelapse W ["img_1_2_3_1850.png"] [1850]
               "no_such_dir/timelapse_web_0.mp4" 1 Sample.start in
  writer_open W "no_such_dir/timelapse_web_0.mp4" "mp4v" 1 (2%nat, 2%nat) = Return false
  ∧ run.1 = Return "no_such_dir/timelapse_web_0.mp4"
  ∧ trace run.2
    = [EvOpen "no_such_dir/timelapse_web_0.mp4" "mp4v" 1 (2%nat, 2%nat) false;
       EvRelease;
       EvLog INFO "Created MP4 timelapse: no_such_dir/timelapse_web_0.mp4"].
Proof. cbv zeta. split_and!; vm_compute; reflexivity. Qed.

(** C9, amended. When the container cannot be opened the job does not fail
    on that account: the writer's state is not looked at, the loop runs
    with every write ignored, the writer is released once, and, nothing
    else raising, the output path is returned with no frame written and no
    file created. *)
Theorem unopened_container_is_not_reported (W : World) (first_file : Path)
    (rest : list Path) (years : list Z) (output_path : Path) (fps : Z)
    (s : state) (a : ndarray) :
  faultless W →
  imread W first_file = Return (Some a) →
  writer_open W output_path "mp4v" fps ((shape a).2, (shape a).1) = Return false →
  ∃ s',
    create_mp4_timelapse W (first_file :: rest) years output_path fps s
    = (Return output_path, s')
    ∧ frames_of (added s s') = []
    ∧ files_created (added s s') = []
    ∧ releases (added s s') = 1%nat.
Proof.
  intros HW Hread Hopen.
  destruct (create_mp4_timelapse_run W HW first_file rest years output_path
              fps s a false Hread Hopen) as (s' & Hrun & Ht).
  exists s'. rewrite (added_app _ _ _ Ht). split_and!; [done| | |].
  - by rewrite frames_of_run.
  - change (?e :: ?l ++ ?k) with ([e] ++ l ++ k).
    unfold files_created. rewrite !omap_app.
    fold (files_created (flat_map (item_events W false (shape a).1 (shape a).2 fps)
                           (zip (first_file :: rest) years))).
    by rewrite files_created_loop.
  - change (?e :: ?l ++ ?k) with ([e] ++ l ++ k).
    unfold releases. rewrite !filter_app, !length_app.
    fold (releases (flat_map (item_events W false (shape a).1 (shape a).2 fps)
                      (zip (first_file :: rest) years))).
    rewrite releases_body; [done|].
    apply Forall_forall. intros e He.
    apply list_elem_of_In, in_flat_map in He as (item & _ & He).
    unfold item_events in He. destruct (decoded W item.1).
    + destruct He.
    + destruct He as [<-|[]]. done.
Qed.

Lemma unopened_container_is_not_reported_witness :
  let W := Sample.world (λ _, false) false (λ _, None) in
  ∃ s',
    create_mp4_timelapse W ["img_1_2_3_1850.png"] [1850]
      "no_such_dir/timelapse_web_0.mp4" 1 Sample.start
    = (Return "no_such_dir/timelapse_web_0.mp4", s')
    ∧ frames_of (added Sample.start s') = []
    ∧ files_created (added Sample.start s') = []
    ∧ releases (added Sample.start s') = 1%nat.
Proof.
  cbv zeta.
  apply (unopened_container_is_not_reported
           (Sample.world (λ _, false) false (λ _, None))
           "img_1_2_3_1850.png" [] [1850] "no_such_dir/timelapse_web_0.mp4" 1
           Sample.start (Sample.gray 2 2 100));
    [split_and!; intros; try eexists; reflexivity | reflexivity | reflexivity].
Defined.

(** ** The batch resolver *)




(** The sample batch goes through: its two images in year order, two
    frames each. *)
Example sample_batch_runs :
  let run := create_timelapse_video Sample.quiet "web_0" "mp4" Sample.start in
  run.1 = Return "output/web_0/timelapse_web_0.mp4"
  ∧ is_write <$> trace run.2 = [false; false; true; true; true; true; false; false]
  ∧ files_created (trace run.2) = ["output/web_0/timelapse_web_0.mp4"].
Proof. cbv zeta. split_and!; vm_compute; reflexivity. Qed.

(** * Further properties of the module and of the routes that use it *)

(** ** Strings and paths, again: the laws the inventory and the routes use *)

Section StringLaws.

Implicit Types s t u : string.

Lemma append_cons c s t : String c s +:+ t = String c (s +:+ t).
Proof. reflexivity. Qed.

Lemma append_nil_l t : "" +:+ t = t.
Proof. reflexivity. Qed.

Lemma append_nil_r s : s +:+ "" = s.
Proof. induction s as [|c s IH]; [done|]. by rewrite append_cons, IH. Qed.

Lemma append_assoc s t u : (s +:+ t) +:+ u = s +:+ t +:+ u.
Proof. induction s as [|c s IH]; [done|]. by rewrite !append_cons, IH. Qed.

Lemma length_append s t :
  String.length (s +:+ t) = (String.length s + String.length t)%nat.
Proof. induction s as [|c s IH]; [done|]. rewrite append_cons. simpl. by rewrite IH. Qed.

Lemma substring_whole s : String.substring 0 (String.length s) s = s.
Proof. induction s as [|c s IH]; [done|]. simpl. by rewrite IH. Qed.

Lemma slice_from_append s t : PyStr.slice_from (String.length s) (s +:+ t) = t.
Proof.
  unfold PyStr.slice_from. rewrite length_append.
  replace (String.length s + String.length t - String.length s)%nat
    with (String.length t) by lia.
  induction s as [|c s IH]; [apply substring_whole|].
  rewrite append_cons. simpl. apply IH.
Qed.

Lemma append_inj_length s1 s2 t1 t2 :
  String.length t1 = String.length t2 →
  s1 +:+ t1 = s2 +:+ t2 → s1 = s2 ∧ t1 = t2.
Proof.
  intros Hlen. revert s2.
  induction s1 as [|c s1 IH]; intros [|d s2] Heq.
  - done.
  - exfalso. apply (f_equal String.length) in Heq.
    rewrite append_nil_l, append_cons in Heq. simpl in Heq.
    rewrite length_append in Heq. lia.
  - exfalso. apply (f_equal String.length) in Heq.
    rewrite append_nil_l, append_cons in Heq. simpl in Heq.
    rewrite length_append in Heq. lia.
  - rewrite !append_cons in Heq. injection Heq as -> Heq.
    destruct (IH _ Heq) as [-> ->]. done.
Qed.

(** [rfind] meets the last occurrence. *)
Lemma rfind_last c s t :
  PyStr.rfind c t = None →
  PyStr.rfind c (s +:+ String c t) = Some (String.length s).
Proof.
  intros Ht. induction s as [|d s IH].
  - simpl. rewrite Ht. by rewrite Ascii.eqb_refl.
  - rewrite append_cons. simpl. by rewrite IH.
Qed.

Lemma rfind_append_None c s t :
  PyStr.rfind c s = None → PyStr.rfind c t = None →
  PyStr.rfind c (s +:+ t) = None.
Proof.
  intros Hs Ht. induction s as [|d s IH]; [done|].
  rewrite append_cons. simpl in *.
  destruct (PyStr.rfind c s); [done|].
  rewrite IH by done. done.
Qed.

Lemma endswith_unfold s suffix :
  PyStr.endswith s suffix
  = if String.eqb s suffix then true
    else match s with
         | EmptyString => false
         | String _ rest => PyStr.endswith rest suffix
         end.
Proof. by destruct s. Qed.

Lemma endswith_spec s suffix :
  PyStr.endswith s suffix = true ↔ ∃ p, s = p +:+ suffix.
Proof.
  split.
  - induction s as [|c s IH]; rewrite endswith_unfold.
    + destruct (String.eqb_spec "" suffix) as [<-|]; [|done]. by exists "".
    + destruct (String.eqb_spec (String c s) suffix) as [<-|]; [by exists ""|].
      intros [p ->]%IH. by exists (String c p).
  - intros [p ->]. induction p as [|c p IH]; rewrite endswith_unfold.
    + by rewrite append_nil_l, String.eqb_refl.
    + rewrite append_cons, IH. by destruct (String.eqb _ _).
Qed.

Lemma startswith_append prefix t : PyStr.startswith (prefix +:+ t) prefix = true.
Proof.
  induction prefix as [|c p IH]; [done|].
  rewrite append_cons. simpl. by rewrite Ascii.eqb_refl, IH.
Qed.

Lemma startswith_spec s prefix :
  PyStr.startswith s prefix = true ↔ ∃ t, s = prefix +:+ t.
Proof.
  split.
  - revert s. induction prefix as [|c p IH]; intros s; simpl.
    + by exists s.
    + destruct s as [|d s]; [done|].
      intros [Hc [t ->]%IH]%andb_prop.
      apply Ascii.eqb_eq in Hc as ->. by exists t.
  - intros [t ->]. apply startswith_append.
Qed.

(** A name that ends in one extension does not end in another of the same
    length. *)
Lemma endswith_other s ext1 ext2 :
  String.length ext1 = String.length ext2 → ext1 ≠ ext2 →
  PyStr.endswith s ext1 = true → PyStr.endswith s ext2 = false.
Proof.
  intros Hlen Hne [p ->]%endswith_spec.
  destruct (PyStr.endswith _ ext2) eqn:E; [|done].
  apply endswith_spec in E as [q Hq].
  by apply append_inj_length in Hq as [_ ?].
Qed.

End StringLaws.

Section PathLaws.

Lemma joinpath_cons parent child :
  joinpath parent child = parent +:+ String "/" child.
Proof. reflexivity. Qed.

(** [(parent / child).name == child] for a child without separator. *)
Lemma name_joinpath parent child :
  is_entry_name child → name (joinpath parent child) = child.
Proof.
  intros Hchild. unfold name. rewrite joinpath_cons.
  rewrite (rfind_last _ _ _ Hchild).
  change (String.substring ?n (String.length ?p - ?n) ?p) with (PyStr.slice_from n p).
  change (parent +:+ String "/" child) with (parent +:+ "/" +:+ child).
  rewrite <- append_assoc.
  replace (S (String.length parent)) with (String.length (parent +:+ "/"))
    by (rewrite length_append; simpl; lia).
  apply slice_from_append.
Qed.

Lemma joinpath_inj parent : Inj (=) (=) (joinpath parent).
Proof. intros c1 c2 H. unfold joinpath in H. by simplify_eq. Qed.

(** [(base / rel).relative_to(base) == rel] *)
Lemma relative_to_joinpath base rel :
  relative_to (joinpath base rel) base = Some rel.
Proof.
  unfold relative_to.
  assert (String.eqb (joinpath base rel) base = false) as ->.
  { apply String.eqb_neq. intros H. apply (f_equal String.length) in H.
    unfold joinpath in H. rewrite !length_append in H. simpl in H. lia. }
  unfold joinpath. rewrite <- append_assoc, startswith_append.
  replace (S (String.length base)) with (String.length (base +:+ "/"))
    by (rewrite length_append; simpl; lia).
  by rewrite slice_from_append.
Qed.

(** The stem and the suffix of [body.ext]: the body must not be empty nor
    the extension hold a dot. *)
Lemma stem_suffix_name parent body ext :
  is_entry_name (body +:+ String "." ext) →
  body ≠ "" → ext ≠ "" → PyStr.rfind "."%char ext = None →
  stem (joinpath parent (body +:+ String "." ext)) = body
  ∧ suffix (joinpath parent (body +:+ String "." ext)) = String "." ext.
Proof.
  intros Hentry Hbody Hext Hdot.
  unfold stem, suffix. rewrite (name_joinpath _ _ Hentry).
  rewrite (rfind_last _ _ _ Hdot).
  assert ((0 <? String.length body)%nat = true) as ->.
  { apply Nat.ltb_lt. destruct body; [done|simpl; lia]. }
  assert ((String.length body <? String.length (body +:+ String "." ext) - 1)%nat
          = true) as ->.
  { apply Nat.ltb_lt. rewrite length_append. simpl.
    destruct ext; [done|simpl; lia]. }
  simpl. split.
  - clear. induction body as [|c body IH]; [by destruct ext|].
    rewrite append_cons. simpl. by rewrite IH.
  - apply slice_from_append.
Qed.

End PathLaws.

(** ** The media inventory *)

Lemma joinpath_assoc a b c : joinpath (joinpath a b) c = joinpath a (joinpath b c).
Proof. unfold joinpath. by rewrite !append_assoc. Qed.

Lemma Forall_filter_keep {A} (P Q : A → Prop) `{!∀ x, Decision (Q x)} l :
  Forall P l → Forall P (filter Q l).
Proof.
  rewrite !Forall_forall. intros HP x [_ Hx]%list_elem_of_filter. by apply HP.
Qed.

Section InventoryFacts.

Context (W : World) (st_size : Path → outcome Z).

Lemma relative_to_output_entry batch_id n :
  relative_to_output (joinpath (joinpath "output" batch_id) n)
  = Return (joinpath batch_id n).
Proof.
  unfold relative_to_output.
  by rewrite joinpath_assoc, relative_to_joinpath.
Qed.

(** The first loop when [stat] answers for every file it is asked about. *)
Lemma collect_images_entries batch_id (size : string → Z) (names : list string) :
  Forall is_entry_name names →
  (∀ n, n ∈ filter (λ n, PyStr.startswith n "timelapse_" = false) names →
        st_size (joinpath (joinpath "output" batch_id) n) = Return (size n)) →
  collect_images st_size (joinpath (joinpath "output" batch_id) <$> names)
  = Return ((λ n, {| image_filename := n;
                     image_path := joinpath batch_id n;
                     image_size := size n |})
            <$> filter (λ n, PyStr.startswith n "timelapse_" = false) names).
Proof.
  induction 1 as [|n names Hn _ IH]; intros Hsize; [done|].
  rewrite fmap_cons. cbn [collect_images].
  rewrite (name_joinpath _ _ Hn), relative_to_output_entry.
  destruct (PyStr.startswith n "timelapse_") eqn:Hpre; cbn [negb].
  - rewrite filter_cons_False in Hsize |- * by (cbv beta; congruence).
    by apply IH.
  - rewrite filter_cons_True in Hsize |- * by done.
    cbn [mbind outcome_bind].
    rewrite (Hsize n) by (by left). rewrite IH; [done|].
    intros m Hm. apply Hsize. by right.
Qed.

(** The first loop when [stat] raises: the error of the first file on which
    it does leaves the loop. *)
Lemma collect_images_raises batch_id (names before after : list string) n e :
  Forall is_entry_name names →
  filter (λ n, PyStr.startswith n "timelapse_" = false) names = before ++ n :: after →
  Forall (λ m, ∃ z, st_size (joinpath (joinpath "output" batch_id) m) = Return z)
         before →
  st_size (joinpath (joinpath "output" batch_id) n) = Raise e →
  collect_images st_size (joinpath (joinpath "output" batch_id) <$> names) = Raise e.
Proof.
  intros Hnames. revert before.
  induction Hnames as [|m names Hm _ IH]; intros before Hsplit Hbefore Hraise.
  { by destruct before. }
  rewrite fmap_cons. cbn [collect_images].
  rewrite (name_joinpath _ _ Hm), relative_to_output_entry.
  destruct (PyStr.startswith m "timelapse_") eqn:Hpre; cbn [negb].
  - rewrite filter_cons_False in Hsplit by (cbv beta; congruence).
    by apply (IH before).
  - rewrite filter_cons_True in Hsplit by done.
    cbn [mbind outcome_bind].
    destruct before as [|b before]; simplify_eq/=.
    + by rewrite Hraise.
    + inversion Hbefore as [|? ? [z Hz] Hrest]; subst.
      rewrite Hz. by rewrite (IH before).
Qed.

Lemma collect_videos_entries batch_id (size : string → Z) (names : list string) :
  Forall is_entry_name names →
  (∀ n, n ∈ names →
        st_size (joinpath (joinpath "output" batch_id) n) = Return (size n)) →
  collect_videos st_size (joinpath (joinpath "output" batch_id) <$> names)
  = Return ((λ n, {| video_filename := n;
                     video_path := joinpath batch_id n;
                     video_format := "mp4";
                     video_size := size n |})
            <$> names).
Proof.
  induction 1 as [|n names Hn _ IH]; intros Hsize; [done|].
  rewrite !fmap_cons. cbn [collect_videos].
  rewrite (name_joinpath _ _ Hn), relative_to_output_entry.
  cbn [mbind outcome_bind].
  rewrite (Hsize n) by (by left). rewrite IH; [done|].
  intros m Hm. apply Hsize. by right.
Qed.

Lemma collect_videos_raises batch_id (before after : list string) n e :
  Forall is_entry_name (before ++ n :: after) →
  Forall (λ m, ∃ z, st_size (joinpath (joinpath "output" batch_id) m) = Return z)
         before →
  st_size (joinpath (joinpath "output" batch_id) n) = Raise e →
  collect_videos st_size
    (joinpath (joinpath "output" batch_id) <$> before ++ n :: after) = Raise e.
Proof.
  intros Hnames Hbefore Hraise.
  induction Hbefore as [|b before [z Hz] _ IH].
  - apply Forall_cons in Hnames as [Hn _].
    rewrite app_nil_l, fmap_cons. cbn [collect_videos].
    rewrite (name_joinpath _ _ Hn), relative_to_output_entry.
    cbn [mbind outcome_bind]. by rewrite Hraise.
  - rewrite <- app_comm_cons in Hnames |- *.
    apply Forall_cons in Hnames as [Hb Hnames].
    rewrite fmap_cons. cbn [collect_videos].
    rewrite (name_joinpath _ _ Hb), relative_to_output_entry.
    cbn [mbind outcome_bind]. rewrite Hz. by rewrite IH.
Qed.

End InventoryFacts.

(** X1. The inventory of an existing batch directory. Its images are the
    [*.png] entries whose name does not start with [timelapse_], its videos
    the [*.mp4] entries, both in listing order, each with the entry's own
    name, its path relative to [output] and the size [stat] gives. Nothing
    but [stat] raises: when it answers for each of these files the
    inventory is returned, and when it raises, on an image or, the images
    done, on a video, its first error is the inventory's. *)
Theorem inventory_of_listing (W : World) (st_size : Path → outcome Z)
    (batch_id : string) (entries : list string) :
  let batch_dir := joinpath "output" batch_id in
  let images := filter (λ n, PyStr.startswith n "timelapse_" = false)
                       (filter (λ n, PyStr.endswith n ".png" = true) entries) in
  let videos := filter (λ n, PyStr.endswith n ".mp4" = true) entries in
  let answers := λ n, ∃ z, st_size (joinpath batch_dir n) = Return z in
  is_batch_id batch_id →
  listdir W batch_dir = Some entries →
  Forall is_entry_name entries →
  (∀ size : string → Z,
     (∀ n, n ∈ images ++ videos → st_size (joinpath batch_dir n) = Return (size n)) →
     get_batch_media_info W st_size batch_id
     = Return
         {| info_batch_id := batch_id;
            info_images :=
              (λ n, {| image_filename := n;
                       image_path := joinpath batch_id n;
                       image_size := size n |}) <$> images;
            info_videos :=
              (λ n, {| video_filename := n;
                       video_path := joinpath batch_id n;
                       video_format := "mp4";
                       video_size := size n |}) <$> videos |})
  ∧ (∀ before n after e,
       images = before ++ n :: after →
       Forall answers before →
       st_size (joinpath batch_dir n) = Raise e →
       get_batch_media_info W st_size batch_id = Raise e)
  ∧ (∀ before n after e,
       Forall answers images →
       videos = before ++ n :: after →
       Forall answers before →
       st_size (joinpath batch_dir n) = Raise e →
       get_batch_media_info W st_size batch_id = Raise e).
Proof.
  intros batch_dir images videos answers _ Hdir Hnames.
  assert (get_batch_media_info W st_size batch_id
          = (imgs ← collect_images st_size
                       (joinpath (joinpath "output" batch_id)
                          <$> filter (λ n, PyStr.endswith n ".png" = true) entries);
             vids ← collect_videos st_size
                       (joinpath (joinpath "output" batch_id) <$> videos);
             Return {| info_batch_id := batch_id;
                       info_images := imgs;
                       info_videos := vids |})) as ->.
  { unfold get_batch_media_info, path_exists, glob_suffix.
    unfold batch_dir in Hdir. rewrite Hdir. by rewrite bool_decide_true by done. }
  assert (Forall is_entry_name videos) as Hvideos by (by apply Forall_filter_keep).
  assert (Forall is_entry_name (filter (λ n, PyStr.endswith n ".png" = true) entries))
    as Hpngs by (by apply Forall_filter_keep).
  split_and!.
  - intros size Hsize.
    rewrite (collect_images_entries st_size batch_id size _ Hpngs)
      by (intros n Hn; apply Hsize, elem_of_app; by left).
    cbn [mbind outcome_bind].
    rewrite (collect_videos_entries st_size batch_id size _ Hvideos)
      by (intros n Hn; apply Hsize, elem_of_app; by right).
    done.
  - intros before n after e Hsplit Hbefore Hraise.
    by rewrite (collect_images_raises st_size batch_id _ before after n e
                  Hpngs Hsplit Hbefore Hraise).
  - intros before n after e Himages Hsplit Hbefore Hraise.
    rewrite (collect_images_entries st_size batch_id
               (λ n, match st_size (joinpath batch_dir n) with
                     | Return z => z
                     | Raise _ => 0
                     end) _ Hpngs).
    + cbn [mbind outcome_bind].
      assert (collect_videos st_size (joinpath (joinpath "output" batch_id) <$> videos)
              = Raise e) as ->; [|done].
      rewrite Hsplit in Hvideos |- *.
      exact (collect_videos_raises st_size batch_id before after n e
               Hvideos Hbefore Hraise).
    + intros m Hm. rewrite Forall_forall in Himages.
      destruct (Himages m Hm) as [z Hz]. unfold batch_dir in *. by rewrite Hz.
Qed.

Lemma inventory_of_listing_witness :
  let st_size : Path → outcome Z :=
    λ p, if String.eqb p "output/web_0/img_1_2_3_1850.png"
         then Raise (FileNotFoundError "output/web_0/img_1_2_3_1850.png")
         else Return 1024 in
  get_batch_media_info Sample.quiet (λ _, Return 1024) "web_0"
  = Return
      {| info_batch_id := "web_0";
         info_images :=
           [ {| image_filename := "img_1_2_3_1950.png";
                image_path := "web_0/img_1_2_3_1950.png";
                image_size := 1024 |};
             {| image_filename := "img_1_2_3_1850.png";
                image_path := "web_0/img_1_2_3_1850.png";
                image_size := 1024 |} ];
         info_videos := [] |}
  ∧ get_batch_media_info Sample.quiet st_size "web_0"
    = Raise (FileNotFoundError "output/web_0/img_1_2_3_1850.png").
Proof.
  assert (is_batch_id "web_0") as Hb
    by (split_and!; [discriminate | discriminate | reflexivity]).
  assert (Forall is_entry_name ["img_1_2_3_1950.png"; "notes.txt"; "img_1_2_3_1850.png"])
    as Hnames by (repeat constructor).
  split.
  - apply (proj1 (inventory_of_listing Sample.quiet (λ _, Return 1024) "web_0"
                    ["img_1_2_3_1950.png"; "notes.txt"; "img_1_2_3_1850.png"]
                    Hb eq_refl Hnames) (λ _, 1024)).
    intros n _. reflexivity.
  - apply (proj1 (proj2 (inventory_of_listing Sample.quiet _ "web_0"
                           ["img_1_2_3_1950.png"; "notes.txt"; "img_1_2_3_1850.png"]
                           Hb eq_refl Hnames))
             ["img_1_2_3_1950.png"] "img_1_2_3_1850.png" []).
    + reflexivity.
    + repeat constructor. by exists 1024.
    + reflexivity.
Defined.

(** X2. Whatever the directory holds, the file the encoder writes,
    [timelapse_<batch>.mp4], is not among the images
    [create_timelapse_video] reads: a video is never taken for a frame. *)
Theorem artifact_is_never_a_frame (W : World) (batch_id : string) :
  joinpath (joinpath "output" batch_id) ("timelapse_" +:+ batch_id +:+ ".mp4")
  ∉ glob_png W (joinpath "output" batch_id).
Proof.
  unfold glob_png. destruct (listdir W _) as [entries|]; [|by apply not_elem_of_nil].
  intros (n & Heq & Hn)%list_elem_of_fmap.
  apply joinpath_inj in Heq as <-.
  apply list_elem_of_filter in Hn as [Hpng _].
  rewrite (endswith_other _ ".mp4" ".png") in Hpng; [done..|].
  apply endswith_spec. exists ("timelapse_" +:+ batch_id).
  by rewrite append_assoc.
Qed.

(** ** The encoder on every path *)


Lemma files_created_body body : Forall body_event body → files_created body = [].
Proof.
  induction 1 as [|e body [_ He] _ IH]; [done|].
  unfold files_created in *. destruct e; try discriminate He; simpl; exact IH.
Qed.

Lemma opens_body body : Forall body_event body → opens body = 0%nat.
Proof.
  unfold opens. induction 1 as [|e body [_ He] _ IH]; [done|].
  rewrite filter_cons_False by (by rewrite He). done.
Qed.

(** The first image is decoded but the writer's constructor raises: the
    error leaves with nothing recorded. *)
Lemma create_mp4_timelapse_unconstructed (W : World) first_file rest years
    output_path fps s a e :
  imread W first_file = Return (Some a) →
  writer_open W output_path "mp4v" fps ((shape a).2, (shape a).1) = Raise e →
  create_mp4_timelapse W (first_file :: rest) years output_path fps s
  = (Raise e, {| heap := heap s ++ [a]; trace := trace s |}).
Proof.
  intros Hread Hopen.
  unfold create_mp4_timelapse.
  unfold mbind at 1, M_bind at 1.
  rewrite (cv2_imread_decoded W first_file a s Hread).
  unfold mbind at 1, M_bind at 1, load at 1.
  rewrite content_fresh.
  destruct (shape a) as [height width] eqn:Hshape. simpl in Hopen.
  unfold VideoWriter_new.
  unfold mbind at 1, M_bind at 1, mbind at 1, M_bind at 1, lift.
  by rewrite Hopen.
Qed.

Lemma create_mp4_timelapse_first_undecoded (W : World) first_file rest years
    output_path fps s :
  imread W first_file = Return None →
  create_mp4_timelapse W (first_file :: rest) years output_path fps s
  = (Raise (ValueError ("Could not read image: " +:+ first_file)), s).
Proof.
  intros Hread. unfold create_mp4_timelapse. unfold mbind at 1, M_bind at 1.
  by rewrite (cv2_imread_undecoded W first_file s Hread).
Qed.

Lemma create_mp4_timelapse_first_raises (W : World) first_file rest years
    output_path fps s e :
  imread W first_file = Raise e →
  create_mp4_timelapse W (first_file :: rest) years output_path fps s
  = (Raise e, s).
Proof.
  intros Hread. unfold create_mp4_timelapse, cv2_imread.
  unfold mbind at 1, M_bind at 1, mbind at 1, M_bind at 1, lift.
  by rewrite Hread.
Qed.

(** Either the run raises before the writer exists and records nothing, or
    it records the opening, the loop's events, one release and, when it
    returns, the closing log line. *)
Lemma create_mp4_timelapse_cases (W : World) image_files years output_path fps s :
  let run := create_mp4_timelapse W image_files years output_path fps s in
  (trace run.2 = trace s ∧ ∃ e, run.1 = Raise e)
  ∨ (∃ size opened body,
       trace run.2
       = trace s
         ++ EvOpen output_path "mp4v" fps size opened
         :: body
         ++ EvRelease
         :: match run.1 with
            | Return _ => [EvLog INFO ("Created MP4 timelapse: " +:+ output_path)]
            | Raise _ => []
            end
       ∧ Forall body_event body
       ∧ (run.1 = Return output_path ∨ ∃ e, run.1 = Raise e)).
Proof.
  intros run. subst run.
  destruct image_files as [|first_file rest]; [left; by eauto|].
  destruct (imread W first_file) as [[a|]|e] eqn:Hread.
  - destruct (writer_open W output_path "mp4v" fps ((shape a).2, (shape a).1))
      as [opened|e] eqn:Hopen.
    + right. exists ((shape a).2, (shape a).1), opened.
      rewrite (create_mp4_timelapse_opened W first_file rest years output_path
                 fps s a opened Hread Hopen).
      cbv zeta.
      match goal with |- context [for_each ?f ?l ?s1] =>
        destruct (emits_for_each body_event f l
                    (encode_image_emits W _ _ _ fps) s1) as (body & Ht & Hbody);
        destruct (for_each f l s1) as [r s2]
      end.
      simpl in Ht. exists body.
      destruct r as [[]|e]; simpl; rewrite Ht, <- !(assoc_L (++)); simpl; eauto.
    + left.
      rewrite (create_mp4_timelapse_unconstructed W first_file rest years
                 output_path fps s a e Hread Hopen). by eauto.
  - left. rewrite (create_mp4_timelapse_first_undecoded W first_file rest years
                     output_path fps s Hread). by eauto.
  - left. rewrite (create_mp4_timelapse_first_raises W first_file rest years
                     output_path fps s e Hread). by eauto.
Qed.

Section RunShape.

Context (ev_open : event) (body tail : list event).
Context (Hbody : Forall body_event body) (Htail : Forall body_event tail).

Lemma files_created_run :
  files_created (ev_open :: body ++ EvRelease :: tail) = files_created [ev_open].
Proof.
  change (ev_open :: body ++ EvRelease :: tail)
    with ([ev_open] ++ body ++ [EvRelease] ++ tail).
  unfold files_created at 1. rewrite !omap_app.
  change (omap _ body) with (files_created body).
  change (omap _ tail) with (files_created tail).
  rewrite (files_created_body body), (files_created_body tail) by done.
  simpl. by rewrite app_nil_r.
Qed.

Lemma opens_run : opens (ev_open :: body ++ EvRelease :: tail) = opens [ev_open].
Proof.
  change (ev_open :: body ++ EvRelease :: tail)
    with ([ev_open] ++ body ++ [EvRelease] ++ tail).
  unfold opens at 1. rewrite !filter_app, !length_app.
  change (length (filter _ body)) with (opens body).
  change (length (filter _ tail)) with (opens tail).
  rewrite (opens_body body), (opens_body tail) by done.
  simpl. unfold opens. lia.
Qed.

Lemma releases_run :
  is_release ev_open = false →
  releases (ev_open :: body ++ EvRelease :: tail) = 1%nat.
Proof.
  intros Hev.
  change (ev_open :: body ++ EvRelease :: tail)
    with ([ev_open] ++ body ++ [EvRelease] ++ tail).
  unfold releases at 1. rewrite !filter_app, !length_app.
  change (length (filter _ body)) with (releases body).
  change (length (filter _ tail)) with (releases tail).
  rewrite (releases_body body), (releases_body tail) by done.
  rewrite filter_cons_False by (by rewrite Hev). done.
Qed.

End RunShape.

(** X3. In every world and on every input, [create_mp4_timelapse] brings
    no file into existence but [output_path], constructs at most one writer
    and releases exactly the writers it constructed; a path is returned only
    after that release, and it is [output_path]. *)
Theorem encoder_touches_only_output (W : World) (image_files : list Path)
    (years : list Z) (output_path : Path) (fps : Z) (s : state) :
  let run := create_mp4_timelapse W image_files years output_path fps s in
  ∃ evs,
    trace run.2 = trace s ++ evs
    ∧ (files_created evs = [] ∨ files_created evs = [output_path])
    ∧ opens evs = releases evs
    ∧ (releases evs ≤ 1)%nat
    ∧ (∀ p, run.1 = Return p → p = output_path ∧ releases evs = 1%nat).
Proof.
  intros run.
  destruct (create_mp4_timelapse_cases W image_files years output_path fps s)
    as [[Ht [e He]]|(size & opened & body & Ht & Hbody & Hr)]; fold run in Ht |- *.
  - exists []. rewrite app_nil_r.
    split_and!; [done|by left|done|by (unfold releases; simpl; lia)|].
    fold run in He. by rewrite He.
  - fold run in Hr. eexists. split; [exact Ht|].
    assert (Forall body_event
              match run.1 with
              | Return _ => [EvLog INFO ("Created MP4 timelapse: " +:+ output_path)]
              | Raise _ => []
              end) as Htail.
    { destruct run.1; by repeat constructor. }
    rewrite files_created_run, opens_run, releases_run by done.
    split_and!; [|done|lia|].
    + destruct opened; [by right|by left].
    + intros p Hp. split; [|done].
      destruct Hr as [Hr|[e Hr]]; rewrite Hr in Hp; by simplify_eq.
Qed.

(** ** The whole job *)

(** The run of [create_timelapse_video] on a batch with images: the first
    log line, then the encoder on the images in year order. *)
Lemma create_timelapse_video_run (W : World) batch_id entries s :
  listdir W (joinpath "output" batch_id) = Some entries →
  glob_png W (joinpath "output" batch_id) ≠ [] →
  let sorted := sort_by_key extract_year (glob_png W (joinpath "output" batch_id)) in
  create_timelapse_video W batch_id "mp4" s
  = create_mp4_timelapse W sorted (extract_year <$> sorted)
      (joinpath (joinpath "output" batch_id) ("timelapse_" +:+ batch_id +:+ ".mp4")) 1
      {| heap := heap s;
         trace := trace s ++ [EvLog INFO ("Creating MP4 timelapse for years: "
                                          +:+ PyStr.repr_ints (extract_year <$> sorted))] |}.
Proof.
  intros Hdir Hpng sorted. unfold create_timelapse_video.
  rewrite bool_decide_false by (by intros []).
  unfold path_exists. rewrite Hdir, bool_decide_true by done. cbn [negb].
  destruct (glob_png W (joinpath "output" batch_id)) as [|f files] eqn:Hglob; [done|].
  unfold logger_info. unfold mbind at 1, M_bind at 1, emit. done.
Qed.

(** X4. In every world and for every batch identifier that names a
    directory under [output], when [create_timelapse_video] returns a path
    the format was [mp4], the batch directory held at least one [*.png], the
    path is [output/<batch>/timelapse_<batch>.mp4], and one writer was
    constructed on it and released before the return. *)
Theorem timelapse_returns_artifact (W : World) (batch_id output_format : string)
    (s : state) (p : string) :
  let run := create_timelapse_video W batch_id output_format s in
  is_batch_id batch_id →
  run.1 = Return p →
  output_format = "mp4"
  ∧ glob_png W (joinpath "output" batch_id) ≠ []
  ∧ p = joinpath (joinpath "output" batch_id) ("timelapse_" +:+ batch_id +:+ ".mp4")
  ∧ opens (added s run.2) = 1%nat
  ∧ releases (added s run.2) = 1%nat
  ∧ last (added s run.2) = Some (EvLog INFO ("Created MP4 timelapse: " +:+ p)).
Proof.
  intros run _ Hp. subst run.
  destruct (decide (output_format = "mp4")) as [->|Hfmt]; last first.
  { unfold create_timelapse_video in Hp. by rewrite bool_decide_true in Hp. }
  destruct (listdir W (joinpath "output" batch_id)) as [entries|] eqn:Hdir; last first.
  { unfold create_timelapse_video, path_exists in Hp.
    rewrite bool_decide_false in Hp by (by intros []).
    rewrite Hdir in Hp. by rewrite bool_decide_false in Hp by (by intros []). }
  destruct (decide (glob_png W (joinpath "output" batch_id) = [])) as [Hnil|Hpng].
  { unfold create_timelapse_video, path_exists in Hp.
    rewrite bool_decide_false in Hp by (by intros []).
    rewrite Hdir, bool_decide_true in Hp by done. by rewrite Hnil in Hp. }
  rewrite (create_timelapse_video_run W batch_id entries s Hdir Hpng) in Hp |- *.
  cbv zeta in Hp |- *.
  match type of Hp with (create_mp4_timelapse W ?l ?ys ?out 1 ?s1).1 = _ =>
    destruct (create_mp4_timelapse_cases W l ys out 1 s1)
      as [[_ [e He]]|(size & opened & body & Ht & Hbody & Hr)];
    [by rewrite He in Hp|];
    destruct (create_mp4_timelapse W l ys out 1 s1) as [r s'] eqn:Hrun
  end.
  simpl in *. subst r.
  destruct Hr as [Hr|[e Hr]]; [|done]. injection Hr as ->.
  rewrite <- (assoc_L (++)) in Ht. rewrite (added_app _ _ _ Ht).
  split_and!; [done..| | |].
  - change (?a :: ?b :: ?l) with ([a] ++ b :: l).
    unfold opens. rewrite filter_app, length_app.
    change (length (filter _ (EvOpen _ _ _ _ _ :: _))) with (opens
      (EvOpen (joinpath (joinpath "output" batch_id)
                 ("timelapse_" +:+ batch_id +:+ ".mp4")) "mp4v" 1 size opened
       :: body ++ EvRelease
       :: [EvLog INFO ("Created MP4 timelapse: "
             +:+ joinpath (joinpath "output" batch_id)
                   ("timelapse_" +:+ batch_id +:+ ".mp4"))])).
    rewrite opens_run by (by repeat constructor). done.
  - change (?a :: ?b :: ?l) with ([a] ++ b :: l).
    unfold releases. rewrite filter_app, length_app.
    change (length (filter _ (EvOpen _ _ _ _ _ :: _))) with (releases
      (EvOpen (joinpath (joinpath "output" batch_id)
                 ("timelapse_" +:+ batch_id +:+ ".mp4")) "mp4v" 1 size opened
       :: body ++ EvRelease
       :: [EvLog INFO ("Created MP4 timelapse: "
             +:+ joinpath (joinpath "output" batch_id)
                   ("timelapse_" +:+ batch_id +:+ ".mp4"))])).
    rewrite releases_run by (by repeat constructor). done.
  - rewrite last_app_cons, app_comm_cons, last_app_cons. done.
Qed.

Lemma timelapse_returns_artifact_witness :
  "mp4" = "mp4"
  ∧ glob_png Sample.quiet (joinpath "output" "web_0") ≠ []
  ∧ "output/web_0/timelapse_web_0.mp4"
    = joinpath (joinpath "output" "web_0") ("timelapse_" +:+ "web_0" +:+ ".mp4")
  ∧ opens (added Sample.start
             (create_timelapse_video Sample.quiet "web_0" "mp4" Sample.start).2) = 1%nat
  ∧ releases (added Sample.start
                (create_timelapse_video Sample.quiet "web_0" "mp4" Sample.start).2) = 1%nat
  ∧ last (added Sample.start
            (create_timelapse_video Sample.quiet "web_0" "mp4" Sample.start).2)
    = Some (EvLog INFO ("Created MP4 timelapse: " +:+ "output/web_0/timelapse_web_0.mp4")).
Proof.
  apply (timelapse_returns_artifact Sample.quiet "web_0" "mp4" Sample.start
           "output/web_0/timelapse_web_0.mp4").
  - split_and!; [discriminate | discriminate | reflexivity].
  - vm_compute. reflexivity.
Defined.

Lemma zip_fmap_self {A B} (f : A → B) (l : list A) :
  zip l (f <$> l) = (λ x, (x, f x)) <$> l.
Proof. induction l as [|x l IH]; [done|]. rewrite !fmap_cons. simpl. by f_equal. Qed.

Lemma fst_zip_take {A B} (l : list A) (k : list B) :
  (zip l k).*1 = take (length k) l.
Proof.
  revert k. induction l as [|x l IH]; intros [|y k]; simpl; try done.
  by rewrite IH.
Qed.

Lemma filter_all {A} (P : A → Prop) `{!∀ x, Decision (P x)} (l : list A) :
  Forall P l → filter P l = l.
Proof.
  induction 1 as [|x l Hx _ IH]; [done|].
  by rewrite filter_cons_True, IH.
Qed.

Lemma frame_duration_pos fps : 1 ≤ frame_duration fps.
Proof. unfold frame_duration. destruct (fps =? 1); lia. Qed.

(** X5. A batch whose identifier names a directory under [output], whose
    entries are ASCII names and whose [*.png] files all decode, in a world
    where the container opens and nothing raises: [create_timelapse_video]
    returns the artifact path and the video holds, in ascending year order,
    two copies of each image composited with the year of its name, twice as
    many frames as the directory has [*.png] entries. *)
Theorem batch_to_video (W : World) (batch_id : string) (entries : list string)
    (s : state) :
  let batch_dir := joinpath "output" batch_id in
  let artifact := joinpath batch_dir ("timelapse_" +:+ batch_id +:+ ".mp4") in
  let sorted := sort_by_key extract_year (glob_png W batch_dir) in
  is_batch_id batch_id →
  faultless W →
  listdir W batch_dir = Some entries →
  Forall (λ n, is_entry_name n ∧ isascii n = true) entries →
  glob_png W batch_dir ≠ [] →
  (∀ f, f ∈ glob_png W batch_dir → ∃ a, imread W f = Return (Some a)) →
  (∀ size, writer_open W artifact "mp4v" 1 size = Return true) →
  ∃ first a s',
    head sorted = Some first
    ∧ imread W first = Return (Some a)
    ∧ StronglySorted Z.le (extract_year <$> sorted)
    ∧ create_timelapse_video W batch_id "mp4" s = (Return artifact, s')
    ∧ frames_of (added s s')
      = flat_map (λ f, replicate 2
                         (composite W (normalized W (shape a).1 (shape a).2
                                         (default [] (decoded W f)))
                                    (extract_year f)))
                 sorted
    ∧ length (frames_of (added s s'))
      = (2 * length (filter (λ n, PyStr.endswith n ".png" = true) entries))%nat.
Proof.
  intros batch_dir artifact sorted _ HW Hdir _ Hpng Hdecode Hopen.
  subst sorted artifact batch_dir.
  set (batch_dir := joinpath "output" batch_id) in *.
  set (artifact := joinpath batch_dir ("timelapse_" +:+ batch_id +:+ ".mp4")) in *.
  pose proof (sort_by_key_Permutation extract_year (glob_png W batch_dir)) as Hperm.
  pose proof (sort_by_key_sorted extract_year (glob_png W batch_dir)) as Hasc.
  destruct (sort_by_key extract_year (glob_png W batch_dir))
    as [|first rest] eqn:Hsorted.
  { by apply Permutation_nil_l in Hperm. }
  destruct (Hdecode first) as [a Ha].
  { rewrite <- Hperm. by left. }
  exists first, a.
  rewrite (create_timelapse_video_run W batch_id entries s Hdir Hpng).
  cbv zeta. fold batch_dir. rewrite Hsorted. fold artifact.
  destruct (create_mp4_timelapse_run W HW first rest
              (extract_year <$> first :: rest) artifact 1
              {| heap := heap s;
                 trace := trace s ++ [EvLog INFO ("Creating MP4 timelapse for years: "
                            +:+ PyStr.repr_ints (extract_year <$> first :: rest))] |}
              a true Ha (Hopen _)) as (s' & Hrun & Ht).
  exists s'. rewrite Hrun. cbn [trace] in Ht.
  rewrite <- (assoc_L (++)) in Ht. rewrite (added_app _ _ _ Ht).
  assert (frames_of ([EvLog INFO ("Creating MP4 timelapse for years: "
                          +:+ PyStr.repr_ints (extract_year <$> first :: rest))]
                     ++ EvOpen artifact "mp4v" 1 ((shape a).2, (shape a).1) true
                     :: flat_map (item_events W true (shape a).1 (shape a).2 1)
                          (zip (first :: rest) (extract_year <$> first :: rest))
                     ++ [EvRelease; EvLog INFO ("Created MP4 timelapse: " +:+ artifact)])
          = flat_map (item_frames W (shape a).1 (shape a).2 1)
              ((λ f, (f, extract_year f)) <$> first :: rest)) as Hframes.
  { rewrite frames_of_app, frames_of_run by done.
    by rewrite zip_fmap_self. }
  rewrite Hframes. split_and!; [done|done| |done| |].
  - eapply StronglySorted_fmap; [|exact Hasc]. by intros x y Hxy.
  - assert (Forall (λ f, ∃ b, imread W f = Return (Some b)) (first :: rest)) as Hall.
    { apply Forall_forall. intros f Hf. apply Hdecode. by rewrite <- Hperm. }
    clear -Hall. induction Hall as [|f l [b Hb] _ IH]; [done|].
    rewrite fmap_cons. cbn [flat_map]. rewrite IH. f_equal.
    unfold item_frames, decoded. simpl. by rewrite Hb.
  - rewrite length_item_frames.
    rewrite <- list_fmap_compose.
    rewrite filter_all.
    + rewrite length_fmap, Hperm. unfold glob_png. rewrite Hdir.
      by rewrite length_fmap.
    + apply Forall_forall. intros f Hf.
      apply list_elem_of_fmap in Hf as (g & -> & Hg). simpl.
      destruct (Hdecode g) as [b Hb]; [by rewrite <- Hperm|].
      unfold decoded. by rewrite Hb.
Qed.

Lemma batch_to_video_witness :
  let batch_dir := joinpath "output" "web_0" in
  let artifact := joinpath batch_dir ("timelapse_" +:+ "web_0" +:+ ".mp4") in
  let sorted := sort_by_key extract_year (glob_png Sample.quiet batch_dir) in
  ∃ first a s',
    head sorted = Some first
    ∧ imread Sample.quiet first = Return (Some a)
    ∧ StronglySorted Z.le (extract_year <$> sorted)
    ∧ create_timelapse_video Sample.quiet "web_0" "mp4" Sample.start
      = (Return artifact, s')
    ∧ frames_of (added Sample.start s')
      = flat_map (λ f, replicate 2
                         (composite Sample.quiet
                            (normalized Sample.quiet (shape a).1 (shape a).2
                               (default [] (decoded Sample.quiet f)))
                            (extract_year f)))
                 sorted
    ∧ length (frames_of (added Sample.start s'))
      = (2 * length (filter (λ n, PyStr.endswith n ".png" = true)
                       ["img_1_2_3_1950.png"; "notes.txt"; "img_1_2_3_1850.png"]))%nat.
Proof.
  apply (batch_to_video Sample.quiet "web_0"
           ["img_1_2_3_1950.png"; "notes.txt"; "img_1_2_3_1850.png"] Sample.start).
  - split_and!; [discriminate | discriminate | reflexivity].
  - exact quiet_faultless.
  - reflexivity.
  - repeat constructor.
  - vm_compute. discriminate.
  - intros f _. eexists. reflexivity.
  - intros size. reflexivity.
Defined.

(** X6. At any frame rate and with any list of years, in a run where the
    container opens and nothing raises, the loop reads only as many images
    as there are years and writes [frame_duration fps] frames, at least one,
    for each of them that decodes. *)
Theorem frame_count_any_rate (W : World) (first_file : Path) (rest : list Path)
    (years : list Z) (output_path : Path) (fps : Z) (s : state) (a : ndarray) :
  faultless W →
  imread W first_file = Return (Some a) →
  writer_open W output_path "mp4v" fps ((shape a).2, (shape a).1) = Return true →
  ∃ s',
    create_mp4_timelapse W (first_file :: rest) years output_path fps s
    = (Return output_path, s')
    ∧ length (frames_of (added s s'))
      = (Z.to_nat (frame_duration fps)
         * length (filter (λ f, is_Some (decoded W f))
                     (take (length years) (first_file :: rest))))%nat
    ∧ 1 ≤ frame_duration fps.
Proof.
  intros HW Hread Hopen.
  destruct (create_mp4_timelapse_run W HW first_file rest years output_path
              fps s a true Hread Hopen) as (s' & Hrun & Ht).
  exists s'. rewrite (added_app _ _ _ Ht).
  split_and!; [done| |apply frame_duration_pos].
  rewrite frames_of_run by done.
  by rewrite length_item_frames, fst_zip_take.
Qed.

Lemma frame_count_any_rate_witness :
  ∃ s',
    create_mp4_timelapse Sample.quiet
      ["img_1_2_3_1850.png"; "img_1_2_3_1900.png"; "img_1_2_3_1950.png"]
      [1850; 1900] "timelapse_web_0.mp4" 30 Sample.start
    = (Return "timelapse_web_0.mp4", s')
    ∧ length (frames_of (added Sample.start s'))
      = (Z.to_nat (frame_duration 30)
         * length (filter (λ f, is_Some (decoded Sample.quiet f))
                     (take (length [1850; 1900])
                        ["img_1_2_3_1850.png"; "img_1_2_3_1900.png";
                         "img_1_2_3_1950.png"])))%nat
    ∧ 1 ≤ frame_duration 30.
Proof.
  apply (frame_count_any_rate Sample.quiet "img_1_2_3_1850.png"
           ["img_1_2_3_1900.png"; "img_1_2_3_1950.png"] [1850; 1900]
           "timelapse_web_0.mp4" 30 Sample.start (Sample.gray 2 2 100));
    [exact quiet_faultless | reflexivity | reflexivity].
Defined.

(** ** Dimensions and range of the frames *)

Lemma shape_backdrop (a : ndarray) : shape (backdrop a) = shape a.
Proof.
  unfold shape, backdrop, cv2px.addWeighted, cv2px.rectangle.
  rewrite length_zip_with_l_eq by (by rewrite length_imap).
  rewrite length_imap. f_equal.
  destruct a as [|row a]; [done|]. simpl.
  rewrite length_zip_with_l_eq by (by rewrite length_imap).
  by rewrite length_imap.
Qed.


Lemma shape_item_frames (W : World) height width fps item :
  faultless W → keeps_dimensions W → (0 < height)%nat →
  Forall (λ frame, shape frame = (height, width))
         (item_frames W height width fps item).
Proof.
  intros (_ & Hresize & _) [Hput Hsize] Hheight. unfold item_frames.
  destruct (decoded W item.1) as [b|]; [|constructor].
  apply Forall_replicate. unfold composite. rewrite Hput, shape_backdrop.
  unfold normalized. case_bool_decide as Hshape.
  - unfold resized. destruct (Hresize b (width, height)) as [b' Hb'].
    rewrite Hb'. by apply (Hsize b).
  - destruct (decide (shape b = (height, width))); [done|contradiction].
Qed.

Lemma shape_loop_frames (W : World) height width fps items :
  faultless W → keeps_dimensions W → (0 < height)%nat →
  Forall (λ frame, shape frame = (height, width))
         (flat_map (item_frames W height width fps) items).
Proof.
  intros HW Hdim Hheight.
  induction items as [|item items IH]; [constructor|].
  cbn [flat_map]. apply Forall_app. split; [|done].
  by apply shape_item_frames.
Qed.

(** X7. With a rasteriser and a resampler that respect dimensions, in a run
    where the container opens and nothing raises, every frame handed to the
    writer has the height and width of the first image, the frame size the
    writer was constructed with. *)
Theorem frames_have_reference_size (W : World) (first_file : Path)
    (rest : list Path) (years : list Z) (output_path : Path) (fps : Z)
    (s : state) (a : ndarray) :
  faultless W →
  keeps_dimensions W →
  a ≠ [] →
  imread W first_file = Return (Some a) →
  writer_open W output_path "mp4v" fps ((shape a).2, (shape a).1) = Return true →
  ∃ s',
    create_mp4_timelapse W (first_file :: rest) years output_path fps s
    = (Return output_path, s')
    ∧ head (added s s')
      = Some (EvOpen output_path "mp4v" fps ((shape a).2, (shape a).1) true)
    ∧ Forall (λ frame, shape frame = shape a) (frames_of (added s s')).
Proof.
  intros HW Hdim Hrows Hread Hopen.
  destruct (create_mp4_timelapse_run W HW first_file rest years output_path
              fps s a true Hread Hopen) as (s' & Hrun & Ht).
  exists s'. rewrite (added_app _ _ _ Ht). split_and!; [done..|].
  rewrite frames_of_run by done.
  assert (0 < (shape a).1)%nat as Hheight.
  { destruct a; [done|simpl; lia]. }
  pose proof (shape_loop_frames W (shape a).1 (shape a).2 fps
                (zip (first_file :: rest) years) HW Hdim Hheight) as Hall.
  by destruct (shape a).
Qed.

Lemma quiet_keeps_dimensions : keeps_dimensions Sample.quiet.
Proof.
  split; [done|]. intros a width height a' Hheight [= <-]. simpl.
  unfold shape, Sample.gray. rewrite length_replicate.
  destruct height; [lia|]. simpl. by rewrite length_replicate.
Defined.

Lemma frames_have_reference_size_witness :
  ∃ s',
    create_mp4_timelapse Sample.quiet ["img_1_2_3_1850.png"; "img_1_2_3_1950.png"]
      [1850; 1950] "timelapse_web_0.mp4" 1 Sample.start
    = (Return "timelapse_web_0.mp4", s')
    ∧ head (added Sample.start s')
      = Some (EvOpen "timelapse_web_0.mp4" "mp4v" 1
                ((shape (Sample.gray 2 2 100)).2, (shape (Sample.gray 2 2 100)).1) true)
    ∧ Forall (λ frame, shape frame = shape (Sample.gray 2 2 100))
             (frames_of (added Sample.start s')).
Proof.
  apply (frames_have_reference_size Sample.quiet "img_1_2_3_1850.png"
           ["img_1_2_3_1950.png"] [1850; 1950] "timelapse_web_0.mp4" 1
           Sample.start (Sample.gray 2 2 100));
    [exact quiet_faultless | exact quiet_keeps_dimensions | discriminate
    | reflexivity | reflexivity].
Defined.

(** In the rectangle a channel goes to an integer within half a unit of
    three tenths of it, whichever way single precision settles the halves:
    95 goes up to 29 and 255 down to 76. *)
Lemma darkened_channel (c : Z) :
  0 ≤ c ≤ 255 →
  0 ≤ cv2px.weighted (7 # 10) (3 # 10) 0 0 c ≤ c
  ∧ -5 ≤ 10 * cv2px.weighted (7 # 10) (3 # 10) 0 0 c - 3 * c ≤ 5.
Proof.
  intros Hc.
  assert (forallb (λ n, let c := Z.of_nat n in
                        let r := cv2px.weighted (7 # 10) (3 # 10) 0 0 c in
                        (0 <=? r) && (r <=? c)
                        && (-5 <=? 10 * r - 3 * c) && (10 * r - 3 * c <=? 5))
                  (seq 0 256) = true) as Hall by (vm_compute; reflexivity).
  rewrite forallb_forall in Hall.
  specialize (Hall (Z.to_nat c)). rewrite Z2Nat.id in Hall by lia.
  cbv zeta in Hall.
  assert (In (Z.to_nat c) (seq 0 256)) as Hin by (apply in_seq; lia).
  apply Hall in Hin. lia.
Qed.

(** X8. In a frame of 8-bit channels, a pixel inside the rectangle comes
    out of the blend darker or equal in every channel, never out of range,
    each channel within half a unit of three tenths of its value. *)
Theorem rectangle_darkens (a : ndarray) (y x : nat) (b g r : Z) :
  pixel_at a y x = Some (b, g, r) →
  cv2px.in_rect (10, 10) (200, 80) y x = true →
  0 ≤ b ≤ 255 → 0 ≤ g ≤ 255 → 0 ≤ r ≤ 255 →
  ∃ b' g' r',
    pixel_at (backdrop a) y x = Some (b', g', r')
    ∧ 0 ≤ b' ≤ b ∧ 0 ≤ g' ≤ g ∧ 0 ≤ r' ≤ r
    ∧ -5 ≤ 10 * b' - 3 * b ≤ 5
    ∧ -5 ≤ 10 * g' - 3 * g ≤ 5
    ∧ -5 ≤ 10 * r' - 3 * r ≤ 5.
Proof.
  intros Hp Hin Hb Hg Hr.
  rewrite (pixel_at_backdrop _ _ _ _ Hp), Hin. simpl.
  eexists _, _, _. split; [reflexivity|].
  pose proof (darkened_channel b Hb). pose proof (darkened_channel g Hg).
  pose proof (darkened_channel r Hr). lia.
Qed.

Lemma rectangle_darkens_witness :
  ∃ b' g' r',
    pixel_at (backdrop (Sample.gray 11 11 100)) 10 10 = Some (b', g', r')
    ∧ 0 ≤ b' ≤ 100 ∧ 0 ≤ g' ≤ 100 ∧ 0 ≤ r' ≤ 100
    ∧ -5 ≤ 10 * b' - 3 * 100 ≤ 5
    ∧ -5 ≤ 10 * g' - 3 * 100 ≤ 5
    ∧ -5 ≤ 10 * r' - 3 * 100 ≤ 5.
Proof.
  apply (rectangle_darkens (Sample.gray 11 11 100) 10 10 100 100 100);
    [vm_compute; reflexivity | reflexivity | lia | lia | lia].
Defined.


(** ** [str] and [int] *)




Lemma pretty_N_char_digit (d : N) :
  (d < 10)%N → PyStr.digit_value (pretty_N_char d) = Some (Z.of_N d).
Proof.
  intros Hd.
  assert (d = 0 ∨ d = 1 ∨ d = 2 ∨ d = 3 ∨ d = 4 ∨ d = 5 ∨ d = 6 ∨ d = 7
          ∨ d = 8 ∨ d = 9)%N as Hcases by lia.
  destruct_or!; subst d; reflexivity.
Qed.

(** The digits of [x] in front of [s]: reading them multiplies what was read
    by a power of ten and adds [x]. *)
Lemma digits_pretty_N_go (x : N) :
  ∃ p : Z, ∀ acc s,
    PyStr.digits acc (pretty_N_go x s) = PyStr.digits (acc * p + Z.of_N x) s.
Proof.
  induction (N.lt_wf_0 x) as [x _ IH].
  destruct (decide (x = 0%N)) as [->|Hx].
  - exists 1. intros acc s. rewrite pretty_N_go_0. f_equal. lia.
  - destruct (IH (x `div` 10)%N) as [p Hp].
    { apply N.div_lt; lia. }
    exists (p * 10). intros acc s.
    rewrite pretty_N_go_step by lia. rewrite Hp. simpl.
    rewrite pretty_N_char_digit by (apply N.mod_lt; lia). f_equal.
    pose proof (N.div_mod x 10 ltac:(lia)) as Hdm.
    apply (f_equal Z.of_N) in Hdm.
    rewrite N2Z.inj_add, N2Z.inj_mul in Hdm. simpl Z.of_N in Hdm. lia.
Qed.

(** A positive number is printed with a digit in front. *)
Lemma pretty_N_go_head (x : N) s :
  (0 < x)%N →
  ∃ d rest, (d < 10)%N ∧ pretty_N_go x s = String (pretty_N_char d) rest.
Proof.
  revert s. induction (N.lt_wf_0 x) as [x _ IH]; intros s Hx.
  rewrite pretty_N_go_step by done.
  destruct (decide (x `div` 10 = 0)%N) as [Hdiv|Hdiv].
  - rewrite Hdiv, pretty_N_go_0. exists (x `mod` 10)%N, s.
    split; [apply N.mod_lt; lia|done].
  - apply IH; [apply N.div_lt; lia|by apply N.neq_0_lt_0].
Qed.



Lemma all_chars_impl (P Q : Ascii.ascii → bool) s :
  (∀ c, P c = true → Q c = true) → all_chars P s = true → all_chars Q s = true.
Proof.
  intros HPQ. induction s as [|c s IH]; [done|]. simpl.
  intros [Hc Hs]%andb_prop. by rewrite (HPQ c Hc), IH.
Qed.

Lemma all_chars_rev_app P s1 s2 :
  all_chars P (String.rev_app s1 s2) = all_chars P s1 && all_chars P s2.
Proof.
  revert s2. induction s1 as [|c s1 IH]; intros s2; [done|].
  simpl. rewrite IH. simpl. by destruct (P c), (all_chars P s1).
Qed.

Lemma rev_app_rev_app s t u :
  String.rev_app (String.rev_app s t) u = String.rev_app t (s +:+ u).
Proof.
  revert t u. induction s as [|c s IH]; intros t u; [done|].
  simpl. by rewrite IH.
Qed.

Lemma rev_rev s : String.rev (String.rev s) = s.
Proof. unfold String.rev. rewrite rev_app_rev_app. simpl. apply append_nil_r. Qed.

Lemma lstrip_id s :
  all_chars (λ c, negb (PyStr.isspace c)) s = true → PyStr.lstrip s = s.
Proof.
  destruct s as [|c s]; [done|]. simpl.
  intros [Hc _]%andb_prop. by destruct (PyStr.isspace c).
Qed.

(** Stripping leaves a string without blanks alone. *)
Lemma strip_id s :
  all_chars (λ c, negb (PyStr.isspace c)) s = true → PyStr.strip s = s.
Proof.
  intros Hs. unfold PyStr.strip, PyStr.rstrip.
  rewrite (lstrip_id s Hs), lstrip_id, rev_rev; [done|].
  unfold String.rev. by rewrite all_chars_rev_app, Hs.
Qed.

Lemma rfind_absent (P : Ascii.ascii → bool) c s :
  P c = false → all_chars P s = true → PyStr.rfind c s = None.
Proof.
  intros Hc. induction s as [|d s IH]; [done|]. simpl.
  intros [Hd Hs]%andb_prop. rewrite IH by done.
  destruct (Ascii.eqb_spec d c) as [->|]; [congruence|done].
Qed.

Lemma digit_char_pretty d : (d < 10)%N → digit_char (pretty_N_char d) = true.
Proof. intros Hd. unfold digit_char. by rewrite pretty_N_char_digit. Qed.

Lemma all_digits_pretty_N_go (x : N) s :
  all_chars digit_char s = true → all_chars digit_char (pretty_N_go x s) = true.
Proof.
  revert s. induction (N.lt_wf_0 x) as [x _ IH]; intros s Hs.
  destruct (decide (x = 0%N)) as [->|Hx]; [by rewrite pretty_N_go_0|].
  rewrite pretty_N_go_step by lia.
  apply IH; [apply N.div_lt; lia|].
  simpl. rewrite digit_char_pretty by (apply N.mod_lt; lia). done.
Qed.

Lemma digit_not_space c : digit_char c = true → negb (PyStr.isspace c) = true.
Proof.
  unfold digit_char, PyStr.digit_value, PyStr.isspace.
  destruct (48 <=? Ascii.nat_of_ascii c)%nat eqn:H1; [|done].
  destruct (Ascii.nat_of_ascii c <=? 57)%nat eqn:H2; [|done].
  intros _. apply Nat.leb_le in H1, H2.
  rewrite negb_true_iff, orb_false_iff, andb_false_iff.
  split; [right; apply Nat.leb_gt; lia | apply Nat.eqb_neq; lia].
Qed.

Lemma numeral_not_space c : numeral_char c = true → negb (PyStr.isspace c) = true.
Proof.
  unfold numeral_char. intros [Hd|Hm]%orb_prop; [by apply digit_not_space|].
  by apply Ascii.eqb_eq in Hm as ->.
Qed.

Lemma pretty_positive_unfold (p : positive) :
  pretty p = pretty_N_go (Npos p) "".
Proof. reflexivity. Qed.

Lemma unsigned_pretty_positive (p : positive) :
  PyStr.unsigned (pretty p) = Some (Zpos p)
  ∧ ∃ d rest, (d < 10)%N ∧ pretty p = String (pretty_N_char d) rest.
Proof.
  rewrite pretty_positive_unfold.
  destruct (pretty_N_go_head (Npos p) "" ltac:(lia)) as (d & rest & Hd & Heq).
  split; [|by eauto].
  destruct (digits_pretty_N_go (Npos p)) as [q Hq].
  specialize (Hq 0 ""). simpl in Hq.
  rewrite Heq in Hq |- *. exact Hq.
Qed.

Lemma all_numeral_str (n : Z) : all_chars numeral_char (PyStr.str n) = true.
Proof.
  assert (∀ p : positive, all_chars numeral_char (pretty p) = true) as Hpos.
  { intros p. rewrite pretty_positive_unfold.
    apply (all_chars_impl digit_char); [|by apply all_digits_pretty_N_go].
    intros c Hc. unfold numeral_char. by rewrite Hc. }
  unfold PyStr.str. destruct n as [|p|p]; [done|apply Hpos|].
  change (pretty (Z.neg p)) with ("-" +:+ pretty p).
  rewrite append_cons, append_nil_l. simpl. apply Hpos.
Qed.

Lemma int_of_str (n : Z) : PyStr.int (PyStr.str n) = Some n.
Proof.
  unfold PyStr.int.
  rewrite strip_id
    by (apply (all_chars_impl numeral_char);
        [apply numeral_not_space|apply all_numeral_str]).
  unfold PyStr.str. destruct n as [|p|p]; [done| |].
  - change (pretty (Z.pos p)) with (pretty p).
    destruct (unsigned_pretty_positive p) as [Hu (d & rest & Hd & Heq)].
    rewrite Heq in Hu |- *.
    assert (d = 0 ∨ d = 1 ∨ d = 2 ∨ d = 3 ∨ d = 4 ∨ d = 5 ∨ d = 6 ∨ d = 7
            ∨ d = 8 ∨ d = 9)%N as Hcases by lia.
    destruct_or!; subst d; exact Hu.
  - change (pretty (Z.neg p)) with ("-" +:+ pretty p).
    rewrite append_cons, append_nil_l.
    destruct (unsigned_pretty_positive p) as [Hu _].
    cbn [PyStr.int]. by rewrite Hu.
Qed.

(** X9. [int(str(n)) == n] for every integer [n]: the year drawn on a frame
    and the year in a file name read back as the same number. *)
Theorem int_str (n : Z) : PyStr.int (PyStr.str n) = Some n.
Proof. apply int_of_str. Qed.

(** ** File names that follow the renderer's convention *)

Lemma rfind_None_cons c d s :
  PyStr.rfind c (String d s) = None ↔ Ascii.eqb d c = false ∧ PyStr.rfind c s = None.
Proof.
  simpl. destruct (PyStr.rfind c s), (Ascii.eqb d c);
    split; (done || by intros [??]).
Qed.

Lemma split_without_separator sep s :
  PyStr.rfind sep s = None → PyStr.split sep s = [s].
Proof.
  induction s as [|c s IH]; [done|].
  intros [Hc Hs]%rfind_None_cons. simpl. by rewrite Hc, IH.
Qed.

(** The fields after the last separator are those of what follows it. *)
Lemma split_append sep s t :
  ∃ field fields,
    PyStr.split sep (s +:+ String sep t) = field :: fields ++ PyStr.split sep t.
Proof.
  induction s as [|c s (field & fields & IH)].
  - exists "", []. rewrite append_nil_l. simpl. by rewrite Ascii.eqb_refl.
  - rewrite append_cons. simpl. rewrite IH.
    destruct (Ascii.eqb c sep).
    + by exists "", (field :: fields).
    + by exists (String c field), fields.
Qed.

Lemma last_field sep s t :
  PyStr.rfind sep t = None →
  PyStr.last_item (PyStr.split sep (s +:+ String sep t)) = Some t.
Proof.
  intros Ht. destruct (split_append sep s t) as (field & fields & ->).
  rewrite (split_without_separator sep t Ht).
  unfold PyStr.last_item. by rewrite app_comm_cons, last_snoc.
Qed.

Lemma str_without (c : Ascii.ascii) (n : Z) :
  numeral_char c = false → PyStr.rfind c (PyStr.str n) = None.
Proof. intros Hc. apply (rfind_absent numeral_char); [done|apply all_numeral_str]. Qed.

Lemma year_field_convention (parent : Path) (prefix : string) (year : Z) :
  is_entry_name prefix →
  year_field
    (joinpath parent (prefix +:+ "_" +:+ PyStr.str year +:+ ".png")) = Some year.
Proof.
  intros Hprefix.
  assert (stem (joinpath parent (prefix +:+ "_" +:+ PyStr.str year +:+ ".png"))
          = prefix +:+ String "_"%char (PyStr.str year)) as Hstem.
  { replace (prefix +:+ "_" +:+ PyStr.str year +:+ ".png")
      with ((prefix +:+ String "_"%char (PyStr.str year)) +:+ String "."%char "png")
      by (by rewrite !append_assoc).
    apply stem_suffix_name; [|by destruct prefix|done..].
    unfold is_entry_name. rewrite append_assoc.
    apply rfind_append_None; [done|].
    apply rfind_None_cons. split; [done|].
    apply rfind_append_None; [by apply str_without|done]. }
  assert (year_field
            (joinpath parent (prefix +:+ "_" +:+ PyStr.str year +:+ ".png"))
          = Some year) as Hfield.
  { unfold year_field. rewrite Hstem, last_field by (by apply str_without).
    simpl. apply int_of_str. }
  done.
Qed.

Lemma extract_year_convention (parent : Path) (prefix : string) (year : Z) :
  is_entry_name prefix →
  extract_year
    (joinpath parent (prefix +:+ "_" +:+ PyStr.str year +:+ ".png")) = year.
Proof.
  intros Hprefix.
  by rewrite extract_year_field, (year_field_convention _ _ _ Hprefix).
Qed.

(** X10. A file named [<prefix>_<year>.png], whatever the directory, the
    prefix and the integer printed as the year, has that integer as its
    year field and is given it by [extract_year]. *)
Theorem extract_year_of_convention (parent : Path) (prefix : string) (year : Z) :
  is_entry_name prefix →
  extract_year
    (joinpath parent (prefix +:+ "_" +:+ PyStr.str year +:+ ".png")) = year
  ∧ year_field
      (joinpath parent (prefix +:+ "_" +:+ PyStr.str year +:+ ".png")) = Some year.
Proof.
  intros Hprefix. split.
  - by apply extract_year_convention.
  - by apply year_field_convention.
Qed.

Lemma extract_year_of_convention_witness :
  extract_year
    (joinpath "output/web_0" ("img_48.85_2.35_35.0" +:+ "_" +:+ PyStr.str 1850 +:+ ".png"))
  = 1850
  ∧ year_field
      (joinpath "output/web_0" ("img_48.85_2.35_35.0" +:+ "_" +:+ PyStr.str 1850 +:+ ".png"))
    = Some 1850.
Proof.
  apply (extract_year_of_convention "output/web_0" "img_48.85_2.35_35.0" 1850).
  reflexivity.
Defined.

(** ** The sequencer inside the job *)









(** ** The batch information route *)

Section BatchInfoFacts.

Context {float_t : Type} (float : string → option float_t) (W : World).

Lemma batch_info_loop (files : list Path) (years : list Z)
    (coords : option (coordinates (float_t := float_t))) :
  foldl (batch_info_step float) (years, coords) files
  = (years ++ omap (λ f, fst <$> parse_image_name float f) files,
     match coords with
     | Some _ => coords
     | None => head (omap (λ f, snd <$> parse_image_name float f) files)
     end).
Proof.
  revert years coords. induction files as [|f files IH]; intros years coords.
  - simpl. rewrite app_nil_r. by destruct coords.
  - cbn [foldl].
    assert (batch_info_step float (years, coords) f
            = (years ++ option_list (fst <$> parse_image_name float f),
               match coords with
               | Some _ => coords
               | None => snd <$> parse_image_name float f
               end)) as ->.
    { unfold batch_info_step.
      destruct (parse_image_name float f) as [[year c]|]; simpl.
      - by destruct coords.
      - rewrite app_nil_r. by destruct coords. }
    rewrite IH. simpl.
    destruct (parse_image_name float f) as [[year c]|]; simpl.
    + rewrite <- (assoc_L (++)). by destruct coords.
    + rewrite app_nil_r. by destruct coords.
Qed.

(** A name the route accepts has at least five fields and a year field. *)
Lemma parse_image_name_year (f : Path) year c :
  parse_image_name float f = Some (year, c) →
  year_field f = Some year
  ∧ (5 ≤ length (PyStr.split "_"%char (stem f)))%nat.
Proof.
  unfold parse_image_name, year_field.
  destruct (5 <=? length _)%nat eqn:Hlen; [|done].
  apply Nat.leb_le in Hlen. intros Hparse. split; [|done].
  destruct (PyStr.last_item _ ≫= PyStr.int) as [y|]; [|done].
  simpl in Hparse.
  repeat (match type of Hparse with
          | context [?o ≫= float] => destruct (o ≫= float); simpl in Hparse; [|done]
          end).
  by simplify_eq.
Qed.

End BatchInfoFacts.

Lemma insert_by_key_fmap {A} (key : A → Z) (x : A) (l : list A) :
  insert_by_key id (key x) (key <$> l) = key <$> insert_by_key key x l.
Proof.
  induction l as [|y l IH]; [done|].
  rewrite fmap_cons. simpl.
  destruct (key x <=? key y); [done|].
  by rewrite IH.
Qed.

(** Sorting the keys is taking the keys of the sorted list. *)
Lemma sort_by_key_fmap {A} (key : A → Z) (l : list A) :
  sort_by_key id (key <$> l) = key <$> sort_by_key key l.
Proof.
  induction l as [|x l IH]; [done|].
  rewrite fmap_cons. simpl. by rewrite IH, insert_by_key_fmap.
Qed.



(** X12. When every [*.png] of the batch has a name the route accepts, the
    years [get_batch_info] reports are, in the same order, the years
    [create_timelapse_video] passes to the encoder. *)
Theorem batch_info_agrees_with_timelapse {float_t : Type}
    (float : string → option float_t) (W : World) (batch_id : string)
    (entries : list string) :
  listdir W (joinpath "output" batch_id) = Some entries →
  Forall (λ f, is_Some (parse_image_name float f))
         (glob_png W (joinpath "output" batch_id)) →
  ∃ coords,
    get_batch_info float W batch_id
    = BatchInfo batch_id
        (extract_year <$> sort_by_key extract_year
                            (glob_png W (joinpath "output" batch_id)))
        coords.
Proof.
  intros Hdir Hall. unfold get_batch_info, path_exists.
  rewrite Hdir, bool_decide_true by done. cbn [negb].
  rewrite batch_info_loop. cbn [app].
  eexists. f_equal. rewrite <- sort_by_key_fmap. f_equal.
  induction Hall as [|f files [[year c] Hf] _ IH]; [done|].
  rewrite fmap_cons, <- IH.
  change (omap ?g (f :: files))
    with (match g f with Some y => y :: omap g files | None => omap g files end).
  cbv beta. rewrite Hf. cbn [fmap option_fmap option_map fst]. f_equal.
  apply parse_image_name_year in Hf as [Hf _].
  by rewrite extract_year_field, Hf.
Qed.

Lemma batch_info_agrees_with_timelapse_witness :
  ∃ coords,
    get_batch_info PyStr.int Sample.quiet "web_0"
    = BatchInfo "web_0"
        (extract_year <$> sort_by_key extract_year
                            (glob_png Sample.quiet (joinpath "output" "web_0")))
        coords.
Proof.
  apply (batch_info_agrees_with_timelapse PyStr.int Sample.quiet "web_0"
           ["img_1_2_3_1950.png"; "notes.txt"; "img_1_2_3_1850.png"]).
  - reflexivity.
  - repeat constructor; vm_compute; eexists; reflexivity.
Defined.

(** ** The timelapse and download routes *)

Lemma create_timelapse_video_not_found (W : World) batch_id s :
  glob_png W (joinpath "output" batch_id) = [] →
  ∃ msg, create_timelapse_video W batch_id "mp4" s
         = (Raise (FileNotFoundError msg), s).
Proof.
  intros Hglob. unfold create_timelapse_video.
  rewrite bool_decide_false by (by intros []).
  destruct (path_exists W (joinpath "output" batch_id)); simpl; [|by eexists].
  rewrite Hglob. by eexists.
Qed.

(** X13. Whatever the letter case of the [format] argument spelling mp4,
    the route answers a batch without directory or without [*.png] with
    status 404 and the message of the [FileNotFoundError], having logged and
    written nothing. *)
Theorem create_timelapse_not_found (W : World) (format_arg : option string)
    (batch_id : string) (s : state) :
  PyStr.lower (default "mp4" format_arg) = "mp4" →
  glob_png W (joinpath "output" batch_id) = [] →
  ∃ msg,
    create_timelapse_video W batch_id "mp4" s = (Raise (FileNotFoundError msg), s)
    ∧ create_timelapse W format_arg batch_id s
      = (Return (TimelapseError 404 msg), s).
Proof.
  intros Hfmt Hglob. unfold create_timelapse.
  rewrite Hfmt, bool_decide_false by (by intros []).
  destruct (create_timelapse_video_not_found W batch_id s Hglob) as [msg ->].
  by exists msg.
Qed.

Lemma create_timelapse_not_found_witness :
  ∃ msg,
    create_timelapse_video Sample.quiet "web_404" "mp4" Sample.start
    = (Raise (FileNotFoundError msg), Sample.start)
    ∧ create_timelapse Sample.quiet (Some "Mp4") "web_404" Sample.start
      = (Return (TimelapseError 404 msg), Sample.start).
Proof.
  apply (create_timelapse_not_found Sample.quiet (Some "Mp4") "web_404" Sample.start);
    reflexivity.
Defined.

Lemma artifact_is_entry batch_id :
  is_entry_name batch_id →
  is_entry_name ("timelapse_" +:+ batch_id +:+ ".mp4").
Proof.
  intros Hb. unfold is_entry_name.
  apply rfind_append_None; [done|]. by apply rfind_append_None.
Qed.

(** The path [create_timelapse_video] returns, when it returns. *)
Lemma create_timelapse_video_returns (W : World) batch_id output_format s p :
  (create_timelapse_video W batch_id output_format s).1 = Return p →
  p = joinpath (joinpath "output" batch_id) ("timelapse_" +:+ batch_id +:+ ".mp4").
Proof.
  intros Hp.
  destruct (decide (output_format = "mp4")) as [->|Hfmt]; last first.
  { unfold create_timelapse_video in Hp. by rewrite bool_decide_true in Hp. }
  destruct (listdir W (joinpath "output" batch_id)) as [entries|] eqn:Hdir; last first.
  { unfold create_timelapse_video, path_exists in Hp.
    rewrite bool_decide_false in Hp by (by intros []).
    rewrite Hdir in Hp. by rewrite bool_decide_false in Hp by (by intros []). }
  destruct (decide (glob_png W (joinpath "output" batch_id) = [])) as [Hnil|Hpng].
  { unfold create_timelapse_video, path_exists in Hp.
    rewrite bool_decide_false in Hp by (by intros []).
    rewrite Hdir, bool_decide_true in Hp by done. by rewrite Hnil in Hp. }
  rewrite (create_timelapse_video_run W batch_id entries s Hdir Hpng) in Hp.
  cbv zeta in Hp.
  match type of Hp with (create_mp4_timelapse W ?l ?ys ?out 1 ?s1).1 = _ =>
    destruct (create_mp4_timelapse_cases W l ys out 1 s1)
      as [[_ [e He]]|(size & opened & body & _ & _ & [Hr|[e Hr]])]
  end; rewrite ?He, ?Hr in Hp; by simplify_eq.
Qed.

(** X14. When the route reports success for a batch identifier that names
    a directory under [output], the payload names the file [timelapse_<batch>.mp4] at
    [output/<batch>/], and the download and preview addresses are that file's
    path below [output]: joined to [output] again, as [download_file] does,
    the address leads back to the video path. *)
Theorem create_timelapse_payload (W : World) (format_arg : option string)
    (batch_id : string) (s s' : state)
    (b video_path video_filename download_url preview_url static_url : string) :
  is_batch_id batch_id →
  create_timelapse W format_arg batch_id s
  = (Return (TimelapseCreated b video_path video_filename download_url
               preview_url static_url), s') →
  b = batch_id
  ∧ video_filename = "timelapse_" +:+ batch_id +:+ ".mp4"
  ∧ video_path = joinpath (joinpath "output" batch_id) video_filename
  ∧ download_url = "/download/" +:+ joinpath batch_id video_filename
  ∧ preview_url = "/static/output/" +:+ joinpath batch_id video_filename
  ∧ static_url = preview_url
  ∧ joinpath "output" (joinpath batch_id video_filename) = video_path.
Proof.
  intros (_ & _ & Hb) Hrun. unfold create_timelapse in Hrun.
  case_bool_decide; [done|].
  destruct (create_timelapse_video W batch_id _ s) as [[p|e] s1] eqn:Hvideo.
  - pose proof (create_timelapse_video_returns W batch_id _ s p
                  ltac:(by rewrite Hvideo)) as ->.
    rewrite name_joinpath in Hrun by (by apply artifact_is_entry).
    simplify_eq. split_and!; by rewrite ?joinpath_assoc.
  - by destruct e.
Qed.

Lemma create_timelapse_payload_witness :
  "web_0" = "web_0"
  ∧ "timelapse_web_0.mp4" = "timelapse_" +:+ "web_0" +:+ ".mp4"
  ∧ "output/web_0/timelapse_web_0.mp4"
    = joinpath (joinpath "output" "web_0") "timelapse_web_0.mp4"
  ∧ "/download/web_0/timelapse_web_0.mp4"
    = "/download/" +:+ joinpath "web_0" "timelapse_web_0.mp4"
  ∧ "/static/output/web_0/timelapse_web_0.mp4"
    = "/static/output/" +:+ joinpath "web_0" "timelapse_web_0.mp4"
  ∧ "/static/output/web_0/timelapse_web_0.mp4"
    = "/static/output/web_0/timelapse_web_0.mp4"
  ∧ joinpath "output" (joinpath "web_0" "timelapse_web_0.mp4")
    = "output/web_0/timelapse_web_0.mp4".
Proof.
  apply (create_timelapse_payload Sample.quiet (Some "MP4") "web_0" Sample.start
           (create_timelapse Sample.quiet (Some "MP4") "web_0" Sample.start).2
           "web_0" "output/web_0/timelapse_web_0.mp4" "timelapse_web_0.mp4"
           "/download/web_0/timelapse_web_0.mp4"
           "/static/output/web_0/timelapse_web_0.mp4"
           "/static/output/web_0/timelapse_web_0.mp4").
  - split_and!; [discriminate | discriminate | reflexivity].
  - vm_compute. reflexivity.
Defined.

(** X15. Asked for the video of a batch whose identifier names a directory
    under [output] and whose video exists on disk, [download_file] has
    [send_file] send the file at [output/<batch>/timelapse_<batch>.mp4] as
    [video/mp4], as an attachment under its own name unless the [inline]
    argument spells [true] in any letter case; it answers with what
    [send_file] built, or with status 500 and the text of the error when
    [send_file] raises. *)
Theorem download_artifact (W : World)
    (send_file : Path → bool → option string → option string → option exn)
    (inline_arg : option string) (batch_id : string) :
  let video_filename := "timelapse_" +:+ batch_id +:+ ".mp4" in
  let video_path := joinpath (joinpath "output" batch_id) video_filename in
  let inline := bool_decide (PyStr.lower (default "false" inline_arg) = "true") in
  let download_name := if inline then None else Some video_filename in
  is_batch_id batch_id →
  path_exists W video_path = true →
  download_file W send_file inline_arg (joinpath batch_id video_filename)
  = match send_file video_path (negb inline) (Some "video/mp4") download_name with
    | None => SendFile video_path (negb inline) (Some "video/mp4") download_name
    | Some e => DownloadError 500 (exn_str e)
    end.
Proof.
  intros video_filename video_path inline download_name (_ & _ & Hb) Hexists.
  unfold download_file. rewrite <- joinpath_assoc. fold video_path.
  rewrite Hexists. fold inline.
  assert (suffix video_path = ".mp4" ∧ name video_path = video_filename) as [-> ->].
  { subst video_path video_filename.
    replace ("timelapse_" +:+ batch_id +:+ ".mp4")
      with (("timelapse_" +:+ batch_id) +:+ String "."%char "mp4")
      by (by rewrite append_assoc).
    split.
    - apply stem_suffix_name; [|done..].
      rewrite append_assoc. by apply artifact_is_entry.
    - apply name_joinpath. rewrite append_assoc. by apply artifact_is_entry. }
  by rewrite bool_decide_true.
Qed.

(** The sample video once the disk has it, sent inline; and the same
    request when [send_file] raises. *)
Lemma download_artifact_witness :
  let W := {| listdir p := if String.eqb p "output/web_0/timelapse_web_0.mp4"
                           then Some [] else listdir Sample.quiet p;
              imread := imread Sample.quiet;
              resize := resize Sample.quiet;
              putText := putText Sample.quiet;
              writer_open := writer_open Sample.quiet;
              writer_fault := writer_fault Sample.quiet |} in
  download_file W (λ _ _ _ _, None) (Some "True") "web_0/timelapse_web_0.mp4"
  = SendFile "output/web_0/timelapse_web_0.mp4" false (Some "video/mp4") None
  ∧ download_file W (λ _ _ _ _, Some (cv2_error "gone")) (Some "True")
      "web_0/timelapse_web_0.mp4"
    = DownloadError 500 "gone".
Proof.
  cbv zeta.
  assert (is_batch_id "web_0") as Hb
    by (split_and!; [discriminate | discriminate | reflexivity]).
  split.
  - apply (download_artifact
             {| listdir p := if String.eqb p "output/web_0/timelapse_web_0.mp4"
                             then Some [] else listdir Sample.quiet p;
                imread := imread Sample.quiet;
                resize := resize Sample.quiet;
                putText := putText Sample.quiet;
                writer_open := writer_open Sample.quiet;
                writer_fault := writer_fault Sample.quiet |}
             (λ _ _ _ _, None) (Some "True") "web_0" Hb).
    reflexivity.
  - apply (download_artifact
             {| listdir p := if String.eqb p "output/web_0/timelapse_web_0.mp4"
                             then Some [] else listdir Sample.quiet p;
                imread := imread Sample.quiet;
                resize := resize Sample.quiet;
                putText := putText Sample.quiet;
                writer_open := writer_open Sample.quiet;
                writer_fault := writer_fault Sample.quiet |}
             (λ _ _ _ _, Some (cv2_error "gone")) (Some "True") "web_0" Hb).
    reflexivity.
Defined.

(** ** The image route *)

Example b64encode_vectors :
  Base64.b64encode [] = ""
  ∧ Base64.b64encode [Byte.x66] = "Zg=="
  ∧ Base64.b64encode [Byte.x66; Byte.x6f] = "Zm8="
  ∧ Base64.b64encode [Byte.x66; Byte.x6f; Byte.x6f] = "Zm9v"
  ∧ Base64.b64encode [Byte.x66; Byte.x6f; Byte.x6f; Byte.x62; Byte.x61; Byte.x72]
    = "Zm9vYmFy"
  ∧ Base64.b64encode [Byte.xff; Byte.xfe; Byte.x00; Byte.xfb] = "//4A+w==".
Proof. repeat split; vm_compute; reflexivity. Qed.




